(** * Expense tracker: amount extraction, date windows, insights and mail sync

    A shallow embedding of the core of [app.py] (the one-page expense and todo
    application) and the properties of its specification.

    Conventions of the embedding.
    - A Python [str] is the list of its Unicode code points ([str := list N]).
      SQLite compares TEXT values bytewise on their UTF-8 encoding, which is the
      lexicographic order of the code points, so one order serves both.
    - A Python [float] holding an amount is represented by the exact rational it
      was read from.  [float()] rounds to the nearest double and is monotone, so
      comparisons and [max] are those of the rationals; rounding in sums and
      quotients is not modelled and no theorem below depends on it.
    - Exceptions are explicit: operations that can raise return a [result]. *)

From Stdlib Require Import Ascii String ZArith NArith QArith Qreduction Qabs Bool Lia List.
From Stdlib Require Import Sorted Permutation.
Import ListNotations.

Set Implicit Arguments.
Close Scope Q_scope.
Local Open Scope N_scope.

(* ------------------------------------------------------------------ *)
(** ** Strings as code points *)

Definition char := N.
Definition str := list char.

(** An ASCII literal as a [str]. *)
Definition lit (s : string) : str :=
  map N_of_ascii (list_ascii_of_string s).

(** U+20B9, the Rupee sign. *)
Definition rupee : char := 8377.

Definition str_eqb (a b : str) : bool :=
  if list_eq_dec N.eq_dec a b then true else false.

(** [str.isspace] and the regular expression class [\s] on [str] agree: the
    code points with the Unicode white-space property known to CPython. *)
Definition is_space (c : char) : bool :=
  ((9 <=? c) && (c <=? 13) || (28 <=? c) && (c <=? 32)
   || (c =? 133) || (c =? 160) || (c =? 5760)
   || (8192 <=? c) && (c <=? 8202)
   || (c =? 8232) || (c =? 8233) || (c =? 8239) || (c =? 8287)
   || (c =? 12288))%N.

(** The class [[0-9]]: the ten ASCII digits only. *)
Definition is_digit (c : char) : bool := ((48 <=? c) && (c <=? 57))%N.

Definition comma : char := 44.
Definition dot : char := 46.
Definition dash : char := 45.

(** [span p t]: the longest prefix of [t] whose elements satisfy [p], and the
    rest (a greedy star over a character class). *)
Fixpoint span (p : char -> bool) (t : str) : str * str :=
  match t with
  | c :: t' => if p c then let (a, b) := span p t' in (c :: a, b) else ([], t)
  | [] => ([], [])
  end.

(* ------------------------------------------------------------------ *)
(** ** AMOUNT_REGEX

    [(?:₹|INR|Rs\.?)\s*([0-9][0-9,]*(?:\.[0-9]{1,2})?)] under [re.IGNORECASE]. *)

(** The code points a pattern letter matches under [re.IGNORECASE] on [str]
    patterns: both ASCII cases and the letters the engine's case tables fold
    onto them (dotted and dotless I for [I], long s for [s]). *)
Definition case_variants (p : char) : list char :=
  match p with
  | 73 => [73; 105; 304; 305]       (* I i İ ı *)
  | 78 => [78; 110]                 (* N n *)
  | 82 => [82; 114]                 (* R r *)
  | 115 => [83; 115; 383]           (* S s ſ *)
  | _ => [p]
  end.

Definition ic (p c : char) : bool := existsb (N.eqb c) (case_variants p).

(** The alternation [(?:₹|INR|Rs\.?)] at the head of [t]; the result is the text
    after the marker.  The three branches start with different code points, and
    the optional period is taken greedily: giving it back cannot help, since the
    period is neither white space nor a digit. *)
Definition marker (t : str) : option str :=
  match t with
  | c :: t1 =>
      if (c =? rupee) then Some t1
      else if ic 73 c then
        match t1 with
        | n :: r :: t3 => if ic 78 n && ic 82 r then Some t3 else None
        | _ => None
        end
      else if ic 82 c then
        match t1 with
        | s :: t2 =>
            if ic 115 s then
              match t2 with
              | d :: t3 => if (d =? dot) then Some t3 else Some t2
              | [] => Some t2
              end
            else None
        | [] => None
        end
      else None
  | [] => None
  end.

(** [(?:\.[0-9]{1,2})?]: a period and one or two digits, two when possible. *)
Definition fraction (t : str) : str * str :=
  match t with
  | d :: f1 :: t2 =>
      if (d =? dot) && is_digit f1 then
        match t2 with
        | f2 :: t3 => if is_digit f2 then ([d; f1; f2], t3) else ([d; f1], t2)
        | [] => ([d; f1], t2)
        end
      else ([], t)
  | _ => ([], t)
  end.

(** The capture group [([0-9][0-9,]*(?:\.[0-9]{1,2})?)]. *)
Definition number (t : str) : option (str * str) :=
  match t with
  | d :: t1 =>
      if is_digit d then
        let (ds, t2) := span (fun c => is_digit c || (c =? comma)) t1 in
        let (fr, t3) := fraction t2 in
        Some (d :: ds ++ fr, t3)
      else None
  | [] => None
  end.

(** A match of the whole pattern anchored at the head of [t]: group 1 and the
    text after the match. *)
Definition match_at (t : str) : option (str * str) :=
  match marker t with
  | Some t1 => number (snd (span is_space t1))
  | None => None
  end.

(** [AMOUNT_REGEX.finditer(text)], as the list of [m.group(1)]: the matches are
    searched left to right and do not overlap; after a match the search resumes
    at its end ([skip] counts the code points of the current match that are
    still to be passed over). *)
Fixpoint finditer_from (skip : nat) (t : str) : list str :=
  match t with
  | [] => []
  | _ :: t' =>
      match skip with
      | S k => finditer_from k t'
      | O =>
          match match_at t with
          | Some (g, rest) =>
              g :: finditer_from (length t - length rest - 1)%nat t'
          | None => finditer_from 0 t'
          end
      end
  end.

Definition finditer (t : str) : list str := finditer_from 0 t.

(* ------------------------------------------------------------------ *)
(** ** float() on decimal literals *)

Definition digit_val (c : char) : N := (c - 48).

Definition digits_val (ds : str) : N :=
  fold_left (fun acc c => (acc * 10 + digit_val c)) ds 0.

(** [float(s)] for the decimal literals [digits] and [digits.digits]; [None]
    stands for [ValueError].  Python's [float] accepts more spellings (signs,
    exponents, blanks, underscores, [inf], [nan]); they cannot come out of
    group 1 of [AMOUNT_REGEX] (see [finditer_float]) and are not modelled. *)
Definition float (s : str) : option Q :=
  let (ip, rest) := span is_digit s in
  match ip, rest with
  | [], _ => None
  | _, [] => Some (Z.of_N (digits_val ip) # 1)%Q
  | _, d :: fp =>
      if (d =? dot) && negb (str_eqb fp []) && forallb is_digit fp then
        Some (Qred (Z.of_N (digits_val (ip ++ fp))
                    # Pos.pow 10 (Pos.of_nat (length fp)))%Q)
      else None
  end.

(** [m.replace(",", "")]. *)
Definition remove_commas (m : str) : str :=
  filter (fun c => negb (c =? comma)) m.

(** [max(nums)] for a non-empty list: the first element not exceeded later. *)
Definition py_max (x : Q) (xs : list Q) : Q :=
  fold_left (fun best y => if Qle_bool y best then best else y) xs x.

(** ** parse_amount *)
Definition parse_amount (text : str) : option Q :=
  let matches := finditer text in
  match matches with
  | [] => None
  | _ =>
      let nums :=
        fold_left
          (fun nums m =>
             match float (remove_commas m) with
             | Some x => nums ++ [x]
             | None => nums
             end)
          matches [] in
      match nums with
      | [] => None
      | x :: xs => Some (py_max x xs)
      end
  end.

(** *** The specification's reading of the extractor *)

(** [ci_eq pat s]: [s] spells the pattern text [pat] up to case. *)
Fixpoint ci_eq (pat s : str) : bool :=
  match pat, s with
  | [], [] => true
  | p :: pat', c :: s' => ic p c && ci_eq pat' s'
  | _, _ => false
  end.

(** A currency marker: the Rupee sign, "INR", or "Rs" with an optional period. *)
Definition is_marker (mk : str) : bool :=
  str_eqb mk [rupee] || ci_eq (lit "INR") mk
  || ci_eq (lit "Rs") mk || ci_eq (lit "Rs.") mk.

(** A numeric literal: a digit, then digits and commas, then optionally a period
    with one or two digits. *)
Definition is_fraction (fr : str) : Prop :=
  fr = [] \/ exists fs, fr = dot :: fs /\ forallb is_digit fs = true
                        /\ (1 <= length fs <= 2)%nat.

Definition amount_literal (g : str) : Prop :=
  exists d ds fr,
    g = d :: ds ++ fr /\ is_digit d = true
    /\ forallb (fun c => is_digit c || (c =? comma)) ds = true
    /\ is_fraction fr.

(** The text contains a marker, optional white space and the start of a numeric
    literal. *)
Definition has_marked_amount (t : str) : Prop :=
  exists pre mk ws d post,
    t = pre ++ mk ++ ws ++ d :: post
    /\ is_marker mk = true /\ forallb is_space ws = true /\ is_digit d = true.

(** The values of the matches that parse, in text order. *)
Definition parsed_values (text : str) : list Q :=
  flat_map (fun m => match float (remove_commas m) with
                     | Some x => [x]
                     | None => []
                     end) (finditer text).

(* ------------------------------------------------------------------ *)
(** ** Exceptions *)

Inductive exn :=
| ValueError
| OverflowError
| KeyError
| HTTPException (status : N) (detail : str).

Inductive result (A : Type) :=
| Ok (a : A)
| Raise (e : exn).
Arguments Ok {A} a.
Arguments Raise {A} e.

Definition bind {A B} (r : result A) (k : A -> result B) : result B :=
  match r with
  | Ok a => k a
  | Raise e => Raise e
  end.

Notation "x <- r ;; k" := (bind r (fun x => k))
  (at level 61, r at next level, right associativity).

(* ------------------------------------------------------------------ *)
(** ** Calendar dates: the part of Python's [datetime] that the program uses *)

Module dt.
Local Open Scope Z_scope.

Record date := Date { year : Z; month : Z; day : Z }.

Definition MINYEAR := 1.
Definition MAXYEAR := 9999.
Definition MAXORDINAL := 3652059.

Definition DAYS_IN_MONTH (m : Z) : Z :=
  match m with
  | 1 => 31 | 2 => 28 | 3 => 31 | 4 => 30 | 5 => 31 | 6 => 30
  | 7 => 31 | 8 => 31 | 9 => 30 | 10 => 31 | 11 => 30 | 12 => 31
  | _ => -1
  end.

Definition DAYS_BEFORE_MONTH (m : Z) : Z :=
  match m with
  | 1 => 0 | 2 => 31 | 3 => 59 | 4 => 90 | 5 => 120 | 6 => 151
  | 7 => 181 | 8 => 212 | 9 => 243 | 10 => 273 | 11 => 304 | 12 => 334
  | _ => -1
  end.

Definition is_leap (y : Z) : bool :=
  (y mod 4 =? 0) && (negb (y mod 100 =? 0) || (y mod 400 =? 0)).

Definition b2z (b : bool) : Z := if b then 1 else 0.

Definition days_before_year (y : Z) : Z :=
  let y := y - 1 in y * 365 + y / 4 - y / 100 + y / 400.

Definition days_in_month (y m : Z) : Z :=
  if (m =? 2) && is_leap y then 29 else DAYS_IN_MONTH m.

Definition days_before_month (y m : Z) : Z :=
  DAYS_BEFORE_MONTH m + b2z ((2 <? m) && is_leap y).

Definition ymd2ord (y m d : Z) : Z :=
  days_before_year y + days_before_month y m + d.

Definition DI400Y := 146097.
Definition DI100Y := 36524.
Definition DI4Y := 1461.

Definition ord2ymd (n : Z) : date :=
  let n := n - 1 in
  let n400 := n / DI400Y in
  let n := n mod DI400Y in
  let y := n400 * 400 + 1 in
  let n100 := n / DI100Y in
  let n := n mod DI100Y in
  let n4 := n / DI4Y in
  let n := n mod DI4Y in
  let n1 := n / 365 in
  let n := n mod 365 in
  let y := y + (n100 * 100 + n4 * 4 + n1) in
  if (n1 =? 4) || (n100 =? 4) then Date (y - 1) 12 31
  else
    let leapyear := (n1 =? 3) && (negb (n4 =? 24) || (n100 =? 3)) in
    let m := Z.shiftr (n + 50) 5 in
    let preceding := DAYS_BEFORE_MONTH m + b2z ((2 <? m) && leapyear) in
    if n <? preceding then
      let m := m - 1 in
      let preceding :=
        preceding - (DAYS_IN_MONTH m + b2z ((m =? 2) && leapyear)) in
      Date y m (n - preceding + 1)
    else Date y m (n - preceding + 1).

(** [date(year, month, day)]: the constructor checks its fields. *)
Definition new (y m d : Z) : result date :=
  if negb ((MINYEAR <=? y) && (y <=? MAXYEAR)) then Raise ValueError
  else if negb ((1 <=? m) && (m <=? 12)) then Raise ValueError
  else if negb ((1 <=? d) && (d <=? days_in_month y m)) then Raise ValueError
  else Ok (Date y m d).

Definition toordinal (d : date) : Z := ymd2ord (year d) (month d) (day d).

Definition fromordinal (n : Z) : date := ord2ymd n.

(** [date - timedelta(days=k)]: building the [timedelta] fails beyond a
    thousand million days, and the difference fails outside years 1..9999. *)
Definition sub_days (d : date) (k : Z) : result date :=
  if 999999999 <? Z.abs k then Raise OverflowError
  else
    let o := toordinal d - k in
    if (0 <? o) && (o <=? MAXORDINAL) then Ok (fromordinal o)
    else Raise OverflowError.

(** [n] written with exactly [width] decimal digits, zero padded; the fields of
    a [date] fit their widths. *)
Fixpoint fmt_dec (width : nat) (n : Z) : str :=
  match width with
  | O => []
  | S w => fmt_dec w (n / 10) ++ [Z.to_N (48 + n mod 10)]
  end.

(** [date.isoformat()]: "%04d-%02d-%02d". *)
Definition isoformat (d : date) : str :=
  fmt_dec 4 (year d) ++ dash :: fmt_dec 2 (month d) ++ dash :: fmt_dec 2 (day d).

(** The dates that [date] objects can hold. *)
Definition valid (d : date) : Prop :=
  MINYEAR <= year d <= MAXYEAR /\ 1 <= month d <= 12
  /\ 1 <= day d <= days_in_month (year d) (month d).

End dt.

(* ------------------------------------------------------------------ *)
(** ** More string operations *)

(** Comparison of [str] values, code point by code point (Python's [<] on
    [str], SQLite's BINARY collation on TEXT). *)
Fixpoint str_compare (a b : str) : comparison :=
  match a, b with
  | [], [] => Eq
  | [], _ :: _ => Lt
  | _ :: _, [] => Gt
  | x :: a', y :: b' =>
      match N.compare x y with
      | Eq => str_compare a' b'
      | c => c
      end
  end.

Definition str_leb (a b : str) : bool :=
  match str_compare a b with Gt => false | _ => true end.

(** [s.split(sep)] for a one-character separator. *)
Fixpoint split (sep : char) (s : str) : list str :=
  match s with
  | [] => [[]]
  | c :: s' =>
      if c =? sep then [] :: split sep s'
      else match split sep s' with
           | w :: ws => (c :: w) :: ws
           | [] => [[c]]
           end
  end.

(** [s.strip()]. *)
Fixpoint lstrip (s : str) : str :=
  match s with
  | c :: s' => if is_space c then lstrip s' else s
  | [] => []
  end.

Definition strip (s : str) : str := rev (lstrip (rev (lstrip s))).

(** [s.lower()] on the ASCII letters and on the two other code points whose
    lower case contains an ASCII letter (U+0130 and the Kelvin sign); the other
    code points are left as they are, which no comparison with an ASCII
    literal can tell from their lower case. *)
Definition lower (s : str) : str :=
  flat_map (fun c => if (65 <=? c) && (c <=? 90) then [c + 32]
                     else if c =? 304 then [105; 775]
                     else if c =? 8490 then [107]
                     else [c]) s.

(** [int(s)] for the strings of ASCII digits; [None] stands for [ValueError].
    Python's [int] also reads a sign, surrounding blanks, underscores and other
    decimal digits, which are not modelled. *)
Definition int (s : str) : option Z :=
  match s with
  | [] => None
  | _ => if forallb is_digit s then Some (Z.of_N (digits_val s)) else None
  end.

(* ------------------------------------------------------------------ *)
(** ** The expense table *)

(** A row of [expenses].  [created_at] is written by the database and read by
    none of the queries, and is left out.  [None] is SQL NULL. *)
Record expense := {
  e_id : Z;
  e_source : str;
  e_date : str;
  e_merchant : option str;
  e_description : option str;
  e_amount : Q;
  e_raw : option str
}.

(** The connection: the rows in insertion order and the AUTOINCREMENT counter
    (the largest identifier given out so far). *)
Record db := {
  expenses : list expense;
  seq : Z
}.

(** [init_db] on a fresh file. *)
Definition init_db : db := {| expenses := []; seq := 0 |}.

Definition store_expense (conn : db) (source date merchant description : str)
    (amount : Q) (raw : str) : db :=
  let i := (seq conn + 1)%Z in
  {| expenses := expenses conn ++
       [{| e_id := i; e_source := source; e_date := date;
           e_merchant := Some merchant; e_description := Some description;
           e_amount := amount; e_raw := Some raw |}];
     seq := i |}.

(* ------------------------------------------------------------------ *)
(** ** summarize_expenses *)

(** A Python [dict] from [str] to [float], in insertion order. *)
Definition dict := list (str * Q).

Fixpoint dict_get (d : dict) (k : str) : option Q :=
  match d with
  | [] => None
  | (k', v) :: d' => if str_eqb k' k then Some v else dict_get d' k
  end.

(** [d[k] = v]. *)
Fixpoint dict_set (d : dict) (k : str) (v : Q) : dict :=
  match d with
  | [] => [(k, v)]
  | (k', v') :: d' =>
      if str_eqb k' k then (k', v) :: d' else (k', v') :: dict_set d' k v
  end.

(** [d.get(k, 0.0)]. *)
Definition dict_get0 (d : dict) (k : str) : Q :=
  match dict_get d k with Some v => v | None => 0%Q end.

(** An entry of the ["expenses"] list of the summary. *)
Record expense_view := {
  v_id : Z;
  v_source : str;
  v_date : str;
  v_merchant : str;
  v_description : str;
  v_amount : Q
}.

Record summary := {
  total : Q;
  by_month : dict;
  by_day : dict;
  expenses_list : list expense_view
}.

(** The WHERE clause: ["1=1"], [" AND date >= ?"] when a start date is bound,
    [" AND source = ?"] when the source is not ["all"]. *)
Definition where_clause (start_date : option str) (source : str) (r : expense)
  : bool :=
  match start_date with
  | Some s => str_leb s (e_date r)
  | None => true
  end
  && (if str_eqb source (lit "all") then true else str_eqb (e_source r) source).

(** [r1] comes before [r2] under [ORDER BY date DESC, id DESC]. *)
Definition row_before (r1 r2 : expense) : bool :=
  match str_compare (e_date r1) (e_date r2) with
  | Gt => true
  | Lt => false
  | Eq => (e_id r2 <=? e_id r1)%Z
  end.

(** A stable insertion sort: [before x y] says that [x] may stand before [y]. *)
Section Sort.
Variable A : Type.
Variable before : A -> A -> bool.

Fixpoint insert_by (x : A) (l : list A) : list A :=
  match l with
  | [] => [x]
  | y :: l' => if before x y then x :: l else y :: insert_by x l'
  end.

Definition sort_by (l : list A) : list A := fold_right insert_by [] l.
End Sort.

Definition order_by (l : list expense) : list expense := sort_by row_before l.

(** [x or ""]. *)
Definition or_empty (o : option str) : str :=
  match o with
  | Some s => s
  | None => []
  end.

Definition view (r : expense) : expense_view :=
  {| v_id := e_id r; v_source := e_source r; v_date := e_date r;
     v_merchant := or_empty (e_merchant r);
     v_description := or_empty (e_description r);
     v_amount := e_amount r |}.

(** The second query, with its [ORDER BY date DESC, id DESC]. *)
Definition rows_full (conn : db) (start_date : option str) (source : str)
  : list expense :=
  order_by (filter (where_clause start_date source) (expenses conn)).

(** The bound start date: [None] when [days <= 0]. *)
Definition start_date (today : dt.date) (days : Z) : result (option str) :=
  if (0 <? days)%Z then
    d <- dt.sub_days today (days - 1) ;; Ok (Some (dt.isoformat d))
  else Ok None.

Definition summarize_expenses (conn : db) (today : dt.date) (days : Z)
    (source : str) : result summary :=
  start <- start_date today days ;;
  let rows := filter (where_clause start source) (expenses conn) in
  let '(total, by_month, by_day) :=
    fold_left
      (fun '(total, by_month, by_day) r =>
         let amount := e_amount r in
         let month_key := firstn 7 (e_date r) in
         ((total + amount)%Q,
          dict_set by_month month_key (dict_get0 by_month month_key + amount)%Q,
          dict_set by_day (e_date r) (dict_get0 by_day (e_date r) + amount)%Q))
      rows (0%Q, [], []) in
  Ok {| total := total; by_month := by_month; by_day := by_day;
        expenses_list := map view (rows_full conn start source) |}.

(* ------------------------------------------------------------------ *)
(** ** build_insights *)

(** The two sentences, each as its format string's arguments:
    "Spending in {last}: ₹{last_spend:,.0f} (avg ₹{avg:,.0f} per day)." and
    "{last} is {abs(pct):.1f}% {direction} than {prev}.". *)
Inductive insight :=
| Spending (last : str) (last_spend avg : Q)
| Change (last : str) (abs_pct : Q) (direction prev : str).

(** [sorted(by_month.keys())]. *)
Definition sorted (l : list str) : list str := sort_by str_leb l.

(** [y, m = map(int, last.split("-"))]. *)
Definition year_month (last : str) : result (Z * Z) :=
  match map int (split dash last) with
  | [Some y; Some m] => Ok (y, m)
  | _ => Raise ValueError
  end.

Definition days_so_far (now : dt.date) (y m : Z) : result Z :=
  if ((dt.year now =? y) && (dt.month now =? m))%Z then Ok (dt.day now)
  else
    first <- dt.new y (m mod 12 + 1)%Z 1 ;;
    d <- dt.sub_days first 1 ;;
    Ok (dt.day d).

(** [by_month[k]]. *)
Definition dict_item (d : dict) (k : str) : result Q :=
  match dict_get d k with
  | Some v => Ok v
  | None => Raise KeyError
  end.

(** [months[-2]]. *)
Definition second_last (l : list str) : str :=
  nth (length l - 2) l [].

(** The percent-change sentence, when there is one. *)
Definition change_insight (by_month : dict) (months : list str)
    (last : str) (last_spend : Q) : result (list insight) :=
  if (2 <=? length months)%nat then
    let prev := second_last months in
    prev_spend <- dict_item by_month prev ;;
    if negb (Qle_bool prev_spend 0) then
      let diff := (last_spend - prev_spend)%Q in
      let pct := (diff / prev_spend * 100)%Q in
      let direction :=
        if negb (Qle_bool diff 0) then lit "higher" else lit "lower" in
      Ok [Change last (Qabs pct) direction prev]
    else Ok []
  else Ok [].

Definition build_insights (today : dt.date) (s : summary)
  : result (list insight) :=
  let by_month := by_month s in
  match by_month with
  | [] => Ok []
  | _ =>
      let months := sorted (map fst by_month) in
      let last := last months [] in
      last_spend <- dict_item by_month last ;;
      ym <- year_month last ;;
      let now := today in
      days <- days_so_far now (fst ym) (snd ym) ;;
      let avg :=
        if (days =? 0)%Z then 0%Q else (last_spend / inject_Z days)%Q in
      more <- change_insight by_month months last last_spend ;;
      Ok (Spending last last_spend avg :: more)
  end.

(* ------------------------------------------------------------------ *)
(** ** api_add_expense *)

(** The JSON body of an add request whose fields, where present, have the types
    the client sends: strings, and a number for the amount.  [None] is an
    absent key. *)
Record add_request := {
  rq_source : option str;
  rq_date : option str;
  rq_amount : option Q;
  rq_merchant : option str;
  rq_description : option str
}.

Definition get_default (o : option str) (default : str) : str :=
  match o with
  | Some s => s
  | None => default
  end.

(** The handler: its outcome and the database it leaves. *)
Definition api_add_expense (today : dt.date) (data : add_request) (conn : db)
  : result unit * db :=
  let source := get_default (rq_source data) (lit "manual") in
  let date :=
    match rq_date data with
    | Some (c :: d) => c :: d
    | _ => dt.isoformat today
    end in
  let amount :=
    match rq_amount data with
    | Some a => if Qeq_bool a 0 then 0%Q else a
    | None => 0%Q
    end in
  if Qle_bool amount 0 then
    (Raise (HTTPException 400 (lit "Amount must be > 0")), conn)
  else
    let merchant := get_default (rq_merchant data) [] in
    let description := get_default (rq_description data) [] in
    (Ok tt,
     store_expense conn source date merchant description amount description).

(* ------------------------------------------------------------------ *)
(** ** sync_gmail_expenses *)

Record header := { h_name : str; h_value : str }.

(** A MIME part: [part.get("mimeType")] and [part.get("body", {}).get("data")]. *)
Record part := { mimeType : option str; part_data : option str }.

(** The payload of a message as the provider returns it: [parts] is [None]
    when the key is absent, [body_data] is [payload.get("body", {}).get("data")]. *)
Record payload := {
  headers : list header;
  parts : option (list part);
  body_data : option str
}.

(** The provider's answer to the search: a page of messages, each with its
    full content; a page either carries no [nextPageToken] or leads to the
    next page. *)
Inductive listing :=
| LastPage (messages : list payload)
| NextPage (messages : list payload) (next : listing).

(** The header value the generator expression finds first, or [""]. *)
Fixpoint header_value (name : str) (hs : list header) : str :=
  match hs with
  | [] => []
  | h :: hs' =>
      if str_eqb (lower (h_name h)) name then h_value h
      else header_value name hs'
  end.

(** [if data:] holds for a string that is present and not empty. *)
Definition truthy (data : option str) : option str :=
  match data with
  | Some (c :: d) => Some (c :: d)
  | _ => None
  end.

(** The loop over the parts, up to its [break]: the data that is decoded. *)
Fixpoint plain_part_data (ps : list part) : option str :=
  match ps with
  | [] => None
  | p :: ps' =>
      if match mimeType p with
         | Some t => str_eqb t (lit "text/plain")
         | None => false
         end
      then match truthy (part_data p) with
           | Some data => Some data
           | None => plain_part_data ps'
           end
      else plain_part_data ps'
  end.

(** The data whose decoding becomes [body]; [None] leaves [body = ""]. *)
Definition selected_data (m : payload) : option str :=
  match parts m with
  | Some ps => plain_part_data ps
  | None => truthy (body_data m)
  end.

(** [from_.split("<")[0].strip() or from_]. *)
Definition merchant_of (from_ : str) : str :=
  match strip (hd [] (split 60 from_)) with
  | [] => from_
  | s => s
  end.

Section Sync.
(** The library functions of the mail path, as the program uses them:
    [base64.urlsafe_b64decode(data.encode("utf-8")).decode("utf-8",
    errors="ignore")], which raises on malformed input;
    [parsedate_to_datetime(date_raw).date()], [None] when it raises; and
    [json.dumps({"subject": subject, "from": from_})]. *)
Variable b64decode_utf8 : str -> result str.
Variable parsedate_to_date : str -> option dt.date.
Variable json_dumps : str -> str -> str.

Definition message_body (m : payload) : result str :=
  match selected_data m with
  | Some data => b64decode_utf8 data
  | None => Ok []
  end.


(** One iteration of [for m in msgs]. *)
Definition sync_message (today : dt.date) (m : payload) (st : db * Z)
  : result (db * Z) :=
  let '(conn, added) := st in
  let subject := header_value (lit "subject") (headers m) in
  let from_ := header_value (lit "from") (headers m) in
  let date_raw := header_value (lit "date") (headers m) in
  let date_str :=
    match parsedate_to_date date_raw with
    | Some d => dt.isoformat d
    | None => dt.isoformat today
    end in
  body <- message_body m ;;
  match parse_amount (subject ++ 10 :: body) with
  | None => Ok (conn, added)
  | Some amount =>
      let merchant := merchant_of from_ in
      let description := subject in
      let raw := firstn 1000 (json_dumps subject from_) in
      Ok (store_expense conn (lit "gmail") date_str merchant description
            amount raw,
          (added + 1)%Z)
  end.

Fixpoint sync_messages (today : dt.date) (msgs : list payload)
    (st : db * Z) : result (db * Z) :=
  match msgs with
  | [] => Ok st
  | m :: msgs' =>
      st' <- sync_message today m st ;; sync_messages today msgs' st'
  end.

(** The [while True] loop over the pages. *)
Fixpoint sync_pages (today : dt.date) (l : listing) (st : db * Z)
  : result (db * Z) :=
  match l with
  | LastPage [] | NextPage [] _ => Ok st
  | LastPage msgs => sync_messages today msgs st
  | NextPage msgs l' =>
      st' <- sync_messages today msgs st ;; sync_pages today l' st'
  end.

(** [sync_gmail_expenses]: the database after the run and the count
    returned. *)
Definition sync_gmail_expenses (today : dt.date) (l : listing) (conn : db)
  : result (db * Z) :=
  sync_pages today l (conn, 0%Z).
End Sync.

(* ------------------------------------------------------------------ *)
(** ** The specification's reading of the mail path *)

(** The messages that a run works through: all pages up to the first empty
    one. *)
Fixpoint batch (l : listing) : list payload :=
  match l with
  | LastPage msgs => msgs
  | NextPage [] _ => []
  | NextPage msgs l' => msgs ++ batch l'
  end.

Definition is_plain (p : part) : bool :=
  match mimeType p with
  | Some t => str_eqb t (lit "text/plain")
  | None => false
  end.

(** The part carries data that [if data:] accepts. *)
Definition has_data (p : part) : bool :=
  match truthy (part_data p) with Some _ => true | None => false end.

(** What the specification's sentence selects: the content of the first part
    declared text/plain, whether or not it has any. *)
Definition spec_selected_data (m : payload) : option str :=
  match parts m with
  | Some ps =>
      match find is_plain ps with
      | Some p => truthy (part_data p)
      | None => None
      end
  | None => truthy (body_data m)
  end.

(** Two text/plain parts, the first without data. *)
Definition two_plain_parts : payload :=
  {| headers := [];
     parts := Some [ {| mimeType := Some (lit "text/plain"); part_data := None |};
                     {| mimeType := Some (lit "text/plain");
                        part_data := Some (lit "UnMgNQ==") |} ];
     body_data := None |}.



(** A message with the given subject and no body. *)
Definition subject_only (subject : str) : payload :=
  {| headers := [ {| h_name := lit "Subject"; h_value := subject |} ];
     parts := None; body_data := None |}.

(** Three messages, the second without an amount, on one page. *)
Definition three_messages : listing :=
  LastPage [ subject_only (lit "Payment of Rs. 100 debited");
             subject_only (lit "Your invoice is ready");
             subject_only (lit "Order placed: INR 1,250.50") ].

(* ------------------------------------------------------------------ *)
(** ** The specification's reading of the store *)

(** The key (date, id) of [v1] is above that of [v2] in the lexicographic
    order: a later date, or the same date and a larger identifier. *)
Definition key_gt (v1 v2 : expense_view) : Prop :=
  str_compare (v_date v1) (v_date v2) = Gt
  \/ (v_date v1 = v_date v2 /\ (v_id v2 < v_id v1)%Z).

(** What the table's declaration guarantees: [id] is a primary key, and
    AUTOINCREMENT keeps the counter at or above every identifier. *)
Definition db_ok (conn : db) : Prop :=
  NoDup (map e_id (expenses conn))
  /\ Forall (fun e => (e_id e <= seq conn)%Z) (expenses conn).

(** Three manual entries, two of them on the same day. *)
Definition three_rows : db :=
  store_expense
    (store_expense
       (store_expense init_db (lit "manual") (lit "2024-03-01") [] [] (5 # 1)%Q [])
       (lit "sms") (lit "2024-03-05") [] [] (7 # 1)%Q [])
    (lit "manual") (lit "2024-03-01") [] [] (9 # 1)%Q [].

(* ------------------------------------------------------------------ *)
(** ** The specification's reading of the calendar *)

(** Chronological comparison of two dates, field by field. *)
Definition date_compare (d1 d2 : dt.date) : comparison :=
  match (dt.year d1 ?= dt.year d2)%Z with
  | Eq =>
      match (dt.month d1 ?= dt.month d2)%Z with
      | Eq => (dt.day d1 ?= dt.day d2)%Z
      | c => c
      end
  | c => c
  end.

(** The month and day that [ord2ymd] derives from the day [n] of a year (from
    0), in a leap year or not: the last steps of [dt.ord2ymd]. *)
Definition month_day (leapyear : bool) (n : Z) : Z * Z :=
  (let m := Z.shiftr (n + 50) 5 in
   let preceding := dt.DAYS_BEFORE_MONTH m + dt.b2z ((2 <? m) && leapyear) in
   if n <? preceding then
     let m := m - 1 in
     let preceding :=
       preceding - (dt.DAYS_IN_MONTH m + dt.b2z ((m =? 2) && leapyear)) in
     (m, n - preceding + 1)
   else (m, n - preceding + 1))%Z.

(** [month_day] lands on a day of a month, [n] days after 1 January. *)
Definition month_day_ok (leapyear : bool) (n : Z) : bool :=
  (let (m, d) := month_day leapyear n in
   (1 <=? m) && (m <=? 12) && (1 <=? d)
   && (d <=? dt.DAYS_IN_MONTH m + dt.b2z ((m =? 2) && leapyear))
   && (dt.DAYS_BEFORE_MONTH m + dt.b2z ((2 <? m) && leapyear) + d =? n + 1))%Z.

(** The key of a month in [by_month]: the first seven characters of the ISO
    form of its dates. *)
Definition month_key (y m : Z) : str :=
  dt.fmt_dec 4 y ++ dash :: dt.fmt_dec 2 m.

(** The row passes the source filter. *)
Definition source_matches (source : str) (r : expense) : Prop :=
  source = lit "all" \/ e_source r = source.

(* ------------------------------------------------------------------ *)
(** ** Sample summaries *)

Definition summary_of (by_month : dict) : summary :=
  {| total := fold_left Qplus (map snd by_month) 0%Q;
     by_month := by_month; by_day := []; expenses_list := [] |}.

(** Two months of spending, the later one higher. *)
Definition two_months : summary :=
  summary_of [(lit "2024-01", (200 # 1)%Q); (lit "2024-02", (250 # 1)%Q)].


(** Spending in December of the year 1 only. *)
Definition first_december : summary :=
  summary_of [(lit "0001-12", (100 # 1)%Q)].

(** The ledger after one manual entry dated 25 December of the year 1. *)
Definition first_december_db : db :=
  snd (api_add_expense (dt.Date 2026 11 4)
         {| rq_source := None; rq_date := Some (lit "0001-12-25");
            rq_amount := Some (100 # 1)%Q; rq_merchant := None;
            rq_description := None |} init_db).

(* ------------------------------------------------------------------ *)
(** ** The specification's reading of the aggregates *)

(** The sum of a list of amounts, accumulated from the left as the code does. *)
Definition Qsum (l : list Q) : Q := fold_left Qplus l 0%Q.

(** The rows that pass the WHERE clause, in table order. *)
Definition filtered (conn : db) (start : option str) (source : str)
  : list expense :=
  filter (where_clause start source) (expenses conn).

(** The month bucket of a row: [r["date"][:7]]. *)
Definition month_of (r : expense) : str := firstn 7 (e_date r).

(** The rows of the bucket [k] under the key function [key]. *)
Definition bucket (key : expense -> str) (k : str) (rows : list expense)
  : list expense :=
  filter (fun r => str_eqb (key r) k) rows.

(** The loop [d[key] = d.get(key, 0.0) + amount] over the rows. *)
Definition accumulate (key : expense -> str) (rows : list expense) (d : dict)
  : dict :=
  fold_left
    (fun d r => dict_set d (key r) (dict_get0 d (key r) + e_amount r)%Q)
    rows d.

(** Every amount of the ledger is at least zero. *)
Definition ledger_nonneg (conn : db) : Prop :=
  Forall (fun e => (0 <= e_amount e)%Q) (expenses conn).

(** What holds of a row written by the sync: it is a "gmail" row with an
    amount of at least zero, a raw snapshot of at most 1000 characters, and a
    merchant and a description that are not NULL. *)
Definition synced (e : expense) : Prop :=
  e_source e = lit "gmail" /\ (0 <= e_amount e)%Q
  /\ (exists raw, e_raw e = Some raw /\ (length raw <= 1000)%nat)
  /\ e_merchant e <> None /\ e_description e <> None.

(* ------------------------------------------------------------------ *)
(** ** The settings table *)

(** The rows of [settings]: [key] is the primary key, [value] may be NULL. *)
Definition settings := list (str * option str).

Definition get_setting (conn : settings) (key : str) (default : option str)
  : option str :=
  match find (fun row => str_eqb (fst row) key) conn with
  | Some row => snd row
  | None => default
  end.

(** [INSERT OR REPLACE]: the row with the same key, if any, gives way. *)
Definition set_setting (conn : settings) (key value : str) : settings :=
  filter (fun row => negb (str_eqb (fst row) key)) conn ++ [(key, Some value)].

Section GmailConfig.
(** [json.loads] on a string, [None] when it raises [JSONDecodeError], and
    [json.dumps] on what it returns. *)
Variable json : Type.
Variable json_loads : str -> option json.
Variable json_dumps_value : json -> str.


End GmailConfig.

(* ------------------------------------------------------------------ *)
(** ** The todo table *)

Record todo := {
  t_id : Z;
  t_text : str;
  t_done : Z;
  t_created_at : str
}.

(** The rows in insertion order and the AUTOINCREMENT counter. *)
Record todo_db := {
  todos : list todo;
  todo_seq : Z
}.

(** [api_add_todo], on the field [text] of the body; [now] is what
    [datetime('now')] gives. *)
Definition api_add_todo (now : str) (text : option str) (conn : todo_db)
  : result unit * todo_db :=
  let text := strip (or_empty text) in
  match text with
  | [] => (Raise (HTTPException 400 (lit "Text required")), conn)
  | _ =>
      let i := (todo_seq conn + 1)%Z in
      (Ok tt,
       {| todos := todos conn ++
            [{| t_id := i; t_text := text; t_done := 0; t_created_at := now |}];
          todo_seq := i |})
  end.

(** [api_toggle_todo], on the integer [id] of the body. *)
Definition api_toggle_todo (todo_id : Z) (conn : todo_db)
  : result unit * todo_db :=
  match find (fun t => (t_id t =? todo_id)%Z) (todos conn) with
  | None => (Raise (HTTPException 404 (lit "Todo not found")), conn)
  | Some row =>
      let new_done := if (t_done row =? 0)%Z then 1%Z else 0%Z in
      (Ok tt,
       {| todos :=
            map (fun t =>
                   if (t_id t =? todo_id)%Z
                   then {| t_id := t_id t; t_text := t_text t;
                           t_done := new_done;
                           t_created_at := t_created_at t |}
                   else t) (todos conn);
          todo_seq := todo_seq conn |})
  end.

(** [api_delete_todo], on the integer [id] of the body. *)
Definition api_delete_todo (todo_id : Z) (conn : todo_db)
  : result unit * todo_db :=
  (Ok tt,
   {| todos := filter (fun t => negb (t_id t =? todo_id)%Z) (todos conn);
      todo_seq := todo_seq conn |}).

(** [t1] may stand before [t2] under [ORDER BY done, created_at DESC]. *)
Definition todo_before (t1 t2 : todo) : bool :=
  match (t_done t1 ?= t_done t2)%Z with
  | Lt => true
  | Gt => false
  | Eq => str_leb (t_created_at t2) (t_created_at t1)
  end.

(** [get_todos]; rows that tie are left in table order. *)
Definition get_todos (conn : todo_db) : list todo :=
  sort_by todo_before (todos conn).

(** What the table's declaration and the three handlers keep: distinct
    identifiers, none above the counter, and a [done] flag that is 0 or 1. *)
Definition todo_ok (conn : todo_db) : Prop :=
  NoDup (map t_id (todos conn))
  /\ Forall (fun t => (t_id t <= todo_seq conn)%Z
                      /\ (t_done t = 0 \/ t_done t = 1)%Z) (todos conn).

(** Two todos, the first one done. *)
Definition two_todos : todo_db :=
  {| todos := [ {| t_id := 1; t_text := lit "pay rent"; t_done := 1;
                   t_created_at := lit "2024-03-01 09:00:00" |};
                {| t_id := 2; t_text := lit "file taxes"; t_done := 0;
                   t_created_at := lit "2024-03-02 10:30:00" |} ];
     todo_seq := 2 |}.


(** [ORDER BY done, created_at DESC] as a relation between an earlier and a
    later row of the result. *)
Definition todo_ordered (t1 t2 : todo) : Prop :=
  (t_done t1 < t_done t2)%Z
  \/ (t_done t1 = t_done t2
      /\ str_leb (t_created_at t2) (t_created_at t1) = true).

(* ------------------------------------------------------------------ *)
(** ** The OAuth callback *)

Section OAuth.
(** A [Flow] of the OAuth library, and [flow.fetch_token(code=code)] followed
    by [flow.credentials.to_json()]: [None] when the exchange raises. *)
Variable flow : Type.
Variable fetch_token : flow -> str -> option str.

(** The dictionary [OAUTH_FLOWS]. *)
Definition flows := list (str * flow).

Inductive callback_outcome :=
| StateExpired      (* the 400 page *)
| ExchangeFailed    (* [fetch_token] raised *)
| Connected.        (* the 200 page *)

Definition api_gmail_callback (state code : str) (fl : flows) (conn : settings)
  : callback_outcome * flows * settings :=
  match find (fun kv => str_eqb (fst kv) state) fl with
  | None => (StateExpired, fl, conn)
  | Some kv =>
      let fl' := filter (fun kv => negb (str_eqb (fst kv) state)) fl in
      match fetch_token (snd kv) code with
      | None => (ExchangeFailed, fl', conn)
      | Some token => (Connected, fl', set_setting conn (lit "gmail_token") token)
      end
  end.
End OAuth.

(* ================================================================== *)
(** * Properties *)

(** ** The amount extractor *)

Lemma span_spec (p : char -> bool) (t : str) :
  t = fst (span p t) ++ snd (span p t)
  /\ forallb p (fst (span p t)) = true
  /\ (snd (span p t) = [] \/ exists c b, snd (span p t) = c :: b /\ p c = false).
Proof.
  induction t as [|c t IH]; simpl.
  - auto.
  - destruct (p c) eqn:Hc.
    + destruct (span p t) as [a b]; simpl in *.
      destruct IH as (-> & Ha & Hb). rewrite Hc. auto.
    + simpl. split; [reflexivity|]. split; [reflexivity|]. right. eauto.
Qed.

Lemma span_app (p : char -> bool) (a b : str) :
  forallb p a = true ->
  (b = [] \/ exists c b', b = c :: b' /\ p c = false) ->
  span p (a ++ b) = (a, b).
Proof.
  intros Ha Hb. induction a as [|x a IH]; simpl in *.
  - destruct Hb as [->|(c & b' & -> & Hc)]; simpl; [reflexivity|now rewrite Hc].
  - apply andb_true_iff in Ha as [Hx Ha]. rewrite Hx, (IH Ha). reflexivity.
Qed.

Lemma ic_variants p c : ic p c = true -> In c (case_variants p).
Proof.
  unfold ic. rewrite existsb_exists. intros (x & Hin & Hx).
  apply N.eqb_eq in Hx. now subst.
Qed.

(** Destructs membership of a code point in an explicit list. *)
Ltac in_cases H :=
  simpl in H;
  repeat (destruct H as [H|H]; [subst|]); try contradiction.

Lemma digit_not_space d : is_digit d = true -> is_space d = false.
Proof.
  unfold is_digit, is_space. intros H.
  apply andb_true_iff in H as [H1 H2].
  apply N.leb_le in H1, H2.
  rewrite !orb_false_iff, !andb_false_iff, !N.leb_gt, !N.eqb_neq. lia.
Qed.

Lemma digit_not_dot d : is_digit d = true -> (d =? dot) = false.
Proof.
  unfold is_digit, dot. intros H. apply andb_true_iff in H as [H1 H2].
  apply N.leb_le in H1, H2. apply N.eqb_neq. lia.
Qed.

Lemma digit_not_comma d : is_digit d = true -> (d =? comma) = false.
Proof.
  unfold is_digit, comma. intros H. apply andb_true_iff in H as [H1 H2].
  apply N.leb_le in H1, H2. apply N.eqb_neq. lia.
Qed.

Lemma space_not_dot c : is_space c = true -> (c =? dot) = false.
Proof.
  intros H. destruct (N.eqb_spec c dot) as [->|]; [discriminate H|reflexivity].
Qed.

Lemma str_eqb_eq a b : str_eqb a b = true <-> a = b.
Proof. unfold str_eqb. destruct (list_eq_dec N.eq_dec a b); split; congruence. Qed.

Lemma marker_sound t t1 :
  marker t = Some t1 -> exists mk, t = mk ++ t1 /\ is_marker mk = true.
Proof.
  unfold marker. destruct t as [|c t]; [discriminate|].
  destruct (N.eqb_spec c rupee) as [->|Hc].
  { intros [= <-]. exists [rupee]. split; reflexivity. }
  destruct (ic 73 c) eqn:HI.
  { destruct t as [|n [|r t3]]; try discriminate.
    destruct (ic 78 n) eqn:HN; [|discriminate].
    destruct (ic 82 r) eqn:HR; [|discriminate].
    intros [= <-]. exists [c; n; r]. split; [reflexivity|].
    unfold is_marker. cbn -[ic]. rewrite HI, HN, HR. cbn.
    now rewrite orb_true_r. }
  destruct (ic 82 c) eqn:HR; [|discriminate].
  destruct t as [|s t2]; [discriminate|].
  destruct (ic 115 s) eqn:HS; [|discriminate].
  assert (H2 : is_marker [c; s] = true).
  { unfold is_marker. cbn -[ic]. rewrite HR, HS. cbn. now rewrite !orb_true_r. }
  destruct t2 as [|d t3].
  { intros [= <-]. exists [c; s]. now split. }
  destruct (N.eqb_spec d dot) as [->|Hd]; intros [= <-].
  - exists [c; s; dot]. split; [reflexivity|].
    unfold is_marker. cbn -[ic]. rewrite HR, HS. cbn. now rewrite !orb_true_r.
  - exists [c; s]. now split.
Qed.

Lemma is_marker_cases mk :
  is_marker mk = true ->
  mk = [rupee]
  \/ (exists a b c, mk = [a; b; c] /\ ic 73 a = true /\ ic 78 b = true /\ ic 82 c = true)
  \/ (exists a b, (mk = [a; b] \/ mk = [a; b; dot])
                  /\ ic 82 a = true /\ ic 115 b = true).
Proof.
  unfold is_marker. rewrite !orb_true_iff, str_eqb_eq.
  intros [[[H|H]|H]|H]; [now left|right; left|right; right|right; right].
  - destruct mk as [|a [|b [|c [|? ?]]]]; cbn -[ic] in H;
      rewrite ?andb_true_iff in H; try (now intuition discriminate).
    destruct H as (? & ? & ? & _). eauto 8.
  - destruct mk as [|a [|b [|? ?]]]; cbn -[ic] in H;
      rewrite ?andb_true_iff in H; try (now intuition discriminate).
    destruct H as (? & ? & _). eauto 8.
  - destruct mk as [|a [|b [|c [|? ?]]]]; cbn -[ic] in H;
      rewrite ?andb_true_iff in H; try (now intuition discriminate).
    destruct H as (? & ? & Hc & _).
    apply ic_variants in Hc. in_cases Hc. eauto 8.
Qed.

(** Evaluates [ic] at closed arguments, leaving the other calls folded. *)
Ltac eval_ic :=
  repeat match goal with
         | |- context [ic ?p ?c] =>
             let v := eval vm_compute in (ic p c) in
             match v with
             | true => change (ic p c) with true
             | false => change (ic p c) with false
             end
         end.

Lemma marker_complete mk ws d post :
  is_marker mk = true -> forallb is_space ws = true -> is_digit d = true ->
  marker (mk ++ ws ++ d :: post) = Some (ws ++ d :: post).
Proof.
  intros Hmk Hws Hd.
  assert (Hnd : forall t, ws ++ d :: post = t ->
                match t with c :: _ => (c =? dot) = false | [] => False end).
  { intros t <-. destruct ws as [|w ws]; simpl in *.
    - now apply digit_not_dot.
    - apply andb_true_iff in Hws as [Hw _]. now apply space_not_dot. }
  apply is_marker_cases in Hmk
    as [->|[(a & b & c & -> & Ha & Hb & Hc)|(a & b & Hm & Ha & Hb)]].
  - reflexivity.
  - apply ic_variants in Ha.
    in_cases Ha; cbn -[ic]; eval_ic; now rewrite Hb, Hc.
  - specialize (Hnd _ eq_refl).
    apply ic_variants in Ha.
    destruct Hm as [->| ->]; in_cases Ha; cbn -[ic]; eval_ic;
      rewrite Hb; try reflexivity;
      destruct (ws ++ d :: post); try contradiction; now rewrite Hnd.
Qed.

Lemma fraction_spec t :
  t = fst (fraction t) ++ snd (fraction t) /\ is_fraction (fst (fraction t)).
Proof.
  unfold fraction, is_fraction.
  destruct t as [|d [|f1 t2]]; simpl; auto.
  destruct (N.eqb_spec d dot) as [->|]; simpl; auto.
  destruct (is_digit f1) eqn:H1; simpl; auto.
  destruct t2 as [|f2 t3]; simpl.
  - split; [reflexivity|]. right. exists [f1]. simpl. rewrite H1. auto.
  - destruct (is_digit f2) eqn:H2; simpl; (split; [reflexivity|]); right.
    + exists [f1; f2]. simpl. rewrite H1, H2. auto.
    + exists [f1]. simpl. rewrite H1. auto.
Qed.

Lemma number_sound t g tl :
  number t = Some (g, tl) -> t = g ++ tl /\ amount_literal g.
Proof.
  unfold number. destruct t as [|d t1]; [discriminate|].
  destruct (is_digit d) eqn:Hd; [|discriminate].
  pose proof (span_spec (fun c => is_digit c || (c =? comma)) t1) as (E1 & F1 & _).
  destruct (span _ t1) as [ds t2]. simpl in E1, F1.
  pose proof (fraction_spec t2) as (E2 & F2).
  destruct (fraction t2) as [fr t3]. simpl in E2, F2.
  intros [= <- <-]. split.
  - simpl. now rewrite <- app_assoc, <- E2, <- E1.
  - exists d, ds, fr. auto.
Qed.

Lemma number_complete d post :
  is_digit d = true -> number (d :: post) <> None.
Proof.
  intros Hd. unfold number. rewrite Hd.
  destruct (span _ post) as [ds t2]. destruct (fraction t2). discriminate.
Qed.

(** A successful match decomposes the text as the specification describes. *)
Lemma match_at_sound t g tl :
  match_at t = Some (g, tl) ->
  exists mk ws,
    t = mk ++ ws ++ g ++ tl /\ is_marker mk = true
    /\ forallb is_space ws = true /\ amount_literal g.
Proof.
  unfold match_at. destruct (marker t) as [t1|] eqn:Hm; [|discriminate].
  apply marker_sound in Hm as (mk & -> & Hmk).
  pose proof (span_spec is_space t1) as (E & F & _).
  destruct (span is_space t1) as [ws t2]. simpl in *.
  intros Hn. apply number_sound in Hn as (-> & Hg).
  exists mk, ws. subst t1. auto.
Qed.

(** Wherever marker, blanks and a digit stand, the pattern matches. *)
Lemma match_at_complete mk ws d post :
  is_marker mk = true -> forallb is_space ws = true -> is_digit d = true ->
  match_at (mk ++ ws ++ d :: post) <> None.
Proof.
  intros Hmk Hws Hd. unfold match_at.
  rewrite marker_complete by assumption.
  rewrite span_app; auto.
  - simpl. now apply number_complete.
  - right. exists d, post. split; [reflexivity|]. now apply digit_not_space.
Qed.

Lemma finditer_from_sound g : forall t k,
  In g (finditer_from k t) ->
  exists pre rest tl, t = pre ++ rest /\ match_at rest = Some (g, tl).
Proof.
  induction t as [|c t IH]; intros k Hin; simpl in Hin; [contradiction|].
  assert (Htl : forall k', In g (finditer_from k' t) ->
            exists pre rest tl, c :: t = pre ++ rest /\ match_at rest = Some (g, tl)).
  { intros k' H. apply IH in H as (pre & rest & tl & -> & H).
    exists (c :: pre), rest, tl. auto. }
  destruct k as [|k]; [|eauto].
  destruct (match_at (c :: t)) as [[g' rest]|] eqn:Hm; [|eauto].
  destruct Hin as [<-|Hin]; [|eauto].
  exists [], (c :: t), rest. auto.
Qed.

Lemma finditer_complete pre rest :
  match_at rest <> None -> finditer (pre ++ rest) <> [].
Proof.
  unfold finditer. intros Hm. induction pre as [|c pre IH]; simpl.
  - destruct rest as [|c rest]; [now contradiction Hm|].
    simpl. destruct (match_at (c :: rest)) as [[g tl]|]; [discriminate|].
    now contradiction Hm.
  - destruct (match_at (c :: pre ++ rest)) as [[g tl]|]; [discriminate|].
    exact IH.
Qed.

Lemma remove_commas_digits ds :
  forallb (fun c => is_digit c || (c =? comma)) ds = true ->
  forallb is_digit (remove_commas ds) = true.
Proof.
  induction ds as [|c ds IH]; simpl; [reflexivity|].
  intros H. apply andb_true_iff in H as [Hc H].
  destruct (N.eqb_spec c comma) as [->|Hn]; simpl; [auto|].
  rewrite orb_false_r in Hc. rewrite Hc. simpl. auto.
Qed.

Lemma remove_commas_id fs :
  forallb is_digit fs = true -> remove_commas fs = fs.
Proof.
  induction fs as [|c fs IH]; simpl; [reflexivity|].
  intros H. apply andb_true_iff in H as [Hc H].
  rewrite (digit_not_comma _ Hc). simpl. now rewrite IH.
Qed.

Lemma Qred_nonneg n p : (0 <= Qred (Z.of_N n # p))%Q.
Proof.
  rewrite Qred_correct. unfold Qle. simpl. lia.
Qed.

(** Every literal of the pattern is read by [float], as a non-negative number:
    the [except ValueError] branch of [parse_amount] is never taken. *)
Lemma float_literal g :
  amount_literal g ->
  exists q, float (remove_commas g) = Some q /\ (0 <= q)%Q.
Proof.
  intros (d & ds & fr & -> & Hd & Hds & Hfr).
  assert (E : remove_commas (d :: ds ++ fr) = (d :: remove_commas ds) ++ fr).
  { unfold remove_commas. simpl. rewrite (digit_not_comma _ Hd). simpl.
    rewrite filter_app. f_equal. f_equal.
    destruct Hfr as [->|(fs & -> & Hfs & _)]; [reflexivity|].
    simpl. f_equal. now apply remove_commas_id. }
  rewrite E. unfold float. rewrite span_app.
  - destruct Hfr as [->|(fs & -> & Hfs & Hlen)].
    + simpl. eexists. split; [reflexivity|]. unfold Qle. simpl. lia.
    + cbn -[Qred digits_val Pos.pow Pos.of_nat]. rewrite Hfs.
      assert (Hne : str_eqb fs [] = false).
      { destruct fs; [simpl in Hlen; lia|reflexivity]. }
      rewrite Hne. cbn -[Qred digits_val Pos.pow Pos.of_nat].
      eexists. split; [reflexivity|]. apply Qred_nonneg.
  - simpl. rewrite Hd. simpl. now apply remove_commas_digits.
  - destruct Hfr as [->|(fs & -> & _)]; [now left|].
    right. exists dot, fs. split; reflexivity.
Qed.

Lemma finditer_literal t g : In g (finditer t) -> amount_literal g.
Proof.
  intros H. apply finditer_from_sound in H as (pre & rest & tl & _ & H).
  now apply match_at_sound in H as (mk & ws & _ & _ & _ & H).
Qed.

Lemma finditer_float t g :
  In g (finditer t) -> exists q, float (remove_commas g) = Some q /\ (0 <= q)%Q.
Proof. intros H. apply float_literal. eapply finditer_literal, H. Qed.

(** The loop that collects [nums] computes [parsed_values]. *)
Lemma nums_loop (ms : list str) : forall acc,
  fold_left (fun nums m => match float (remove_commas m) with
                           | Some x => nums ++ [x]
                           | None => nums
                           end) ms acc
  = acc ++ flat_map (fun m => match float (remove_commas m) with
                              | Some x => [x]
                              | None => []
                              end) ms.
Proof.
  induction ms as [|m ms IH]; intros acc; simpl.
  - now rewrite app_nil_r.
  - rewrite IH. destruct (float (remove_commas m)); simpl.
    + now rewrite <- app_assoc.
    + reflexivity.
Qed.

Lemma parse_amount_values text :
  parse_amount text = match parsed_values text with
                      | [] => None
                      | x :: xs => Some (py_max x xs)
                      end.
Proof.
  unfold parse_amount, parsed_values. rewrite nums_loop. simpl.
  destruct (finditer text); reflexivity.
Qed.

Lemma py_max_spec xs : forall x,
  (x <= py_max x xs)%Q
  /\ Forall (fun y => (y <= py_max x xs)%Q) xs
  /\ In (py_max x xs) (x :: xs).
Proof.
  unfold py_max. induction xs as [|y xs IH]; intros x; simpl.
  - split; [apply Qle_refl|]. split; [constructor|now left].
  - destruct (Qle_bool y x) eqn:Hle.
    + destruct (IH x) as (H1 & H2 & H3). split; [exact H1|]. split.
      * constructor; [|exact H2]. apply Qle_bool_iff in Hle.
        eapply Qle_trans; eassumption.
      * destruct H3 as [H3|H3]; [now left|right; now right].
    + destruct (IH y) as (H1 & H2 & H3).
      assert (Hxy : (x <= y)%Q).
      { apply Qlt_le_weak, Qnot_le_lt. intros H.
        apply Qle_bool_iff in H. congruence. }
      split; [eapply Qle_trans; eassumption|]. split.
      * constructor; assumption.
      * right. exact H3.
Qed.

Lemma parsed_values_nonneg text :
  Forall (fun x => (0 <= x)%Q) (parsed_values text).
Proof.
  unfold parsed_values. apply Forall_forall. intros x Hx.
  apply in_flat_map in Hx as (g & Hg & Hx).
  apply finditer_float in Hg as (q & Hq & H0). rewrite Hq in Hx.
  destruct Hx as [<-|[]]. exact H0.
Qed.

Lemma parsed_values_length text :
  length (parsed_values text) = length (finditer text).
Proof.
  unfold parsed_values.
  assert (H : forall g, In g (finditer text) ->
            exists q, float (remove_commas g) = Some q /\ (0 <= q)%Q)
    by (intros g Hg; exact (finditer_float _ _ Hg)).
  induction (finditer text) as [|g l IH]; simpl; [reflexivity|].
  destruct (H g (or_introl eq_refl)) as (q & -> & _). simpl.
  f_equal. apply IH. intros; apply H; now right.
Qed.

(** C1: for every text, if at least one currency-marker match parses to a
    number, [parse_amount] returns the maximum of the parsed match values (a
    value of the list that no other exceeds), and if none parses it returns
    [None]; for the text "₹100 and ₹250" it returns 250. *)
Theorem parse_amount_max_wins :
  (forall text,
      match parsed_values text with
      | [] => parse_amount text = None
      | _ :: _ =>
          exists v, parse_amount text = Some v
                    /\ In v (parsed_values text)
                    /\ Forall (fun x => (x <= v)%Q) (parsed_values text)
      end)
  /\ parse_amount (rupee :: lit "100 and " ++ rupee :: lit "250")
     = Some (250 # 1)%Q.
Proof.
  split; [|vm_compute; reflexivity].
  intros text. rewrite parse_amount_values.
  destruct (parsed_values text) as [|x xs]; [reflexivity|].
  destruct (py_max_spec xs x) as (H1 & H2 & H3).
  exists (py_max x xs). split; [reflexivity|]. split; [exact H3|].
  constructor; assumption.
Qed.

Lemma parse_amount_some_iff text :
  parse_amount text <> None <-> finditer text <> [].
Proof.
  rewrite parse_amount_values.
  pose proof (parsed_values_length text) as Hlen.
  destruct (parsed_values text), (finditer text); simpl in Hlen;
    try discriminate Hlen; split; intros H; try discriminate; congruence.
Qed.

(** C3: [parse_amount] recognizes an amount exactly when the text contains a
    currency marker (the Rupee sign, "INR", or "Rs" with an optional period, in
    any case), optional white space and a digit starting a numeric literal;
    every literal it reads is a digit, then digits and commas, then optionally a
    period with one or two digits.  "Rs. 1,234.50" and "INR 1234.5" give 1234.5,
    "₹1234" gives 1234, and "1234" without a marker gives [None]. *)
Theorem parse_amount_recognizes :
  (forall text, parse_amount text <> None <-> has_marked_amount text)
  /\ (forall text, Forall amount_literal (finditer text))
  /\ parse_amount (lit "Rs. 1,234.50") = Some (2469 # 2)%Q
  /\ parse_amount (lit "INR 1234.5") = Some (2469 # 2)%Q
  /\ parse_amount (rupee :: lit "1234") = Some (1234 # 1)%Q
  /\ parse_amount (lit "1234") = None.
Proof.
  split; [|split; [|repeat split; vm_compute; reflexivity]].
  - intros text. rewrite parse_amount_some_iff. split.
    + intros Hne. destruct (finditer text) as [|g l] eqn:E; [congruence|].
      assert (Hin : In g (finditer text)) by (rewrite E; now left).
      apply finditer_from_sound in Hin as (pre & rest & tl & -> & Hm).
      apply match_at_sound in Hm
        as (mk & ws & -> & Hmk & Hws & d & ds & fr & -> & Hd & _).
      exists pre, mk, ws, d, ((ds ++ fr) ++ tl). auto.
    + intros (pre & mk & ws & d & post & -> & Hmk & Hws & Hd).
      apply finditer_complete. now apply match_at_complete.
  - intros text. apply Forall_forall. intros g. apply finditer_literal.
Qed.

(** ** Manual entry *)



(** ** The mail path *)

Lemma plain_part_data_spec ps :
  (forall pre p post,
      ps = pre ++ p :: post ->
      is_plain p = true -> has_data p = true ->
      forallb (fun q => negb (is_plain q && has_data q)) pre = true ->
      plain_part_data ps = part_data p)
  /\ (forallb (fun q => negb (is_plain q && has_data q)) ps = true ->
      plain_part_data ps = None).
Proof.
  induction ps as [|q ps [IH1 IH2]]; split.
  - intros [|x pre] p post E; discriminate E.
  - reflexivity.
  - intros pre p post E Hp Hd Hpre. destruct pre as [|q' pre]; simpl in E.
    + injection E as <- <-. simpl. fold (is_plain q). rewrite Hp.
      unfold has_data in Hd. destruct (truthy (part_data q)) eqn:T; [|discriminate].
      unfold truthy in T. destruct (part_data q) as [[|c d]|]; congruence.
    + injection E as <- ->. simpl in Hpre.
      apply andb_true_iff in Hpre as [Hq Hpre].
      simpl. fold (is_plain q). unfold has_data in Hq.
      destruct (is_plain q); simpl in Hq.
      * destruct (truthy (part_data q)); [discriminate|]. eapply IH1; eauto.
      * eapply IH1; eauto.
  - simpl. intros H. apply andb_true_iff in H as [Hq H].
    fold (is_plain q). unfold has_data in Hq.
    destruct (is_plain q); simpl in Hq; auto.
    destruct (truthy (part_data q)); [discriminate|]. auto.
Qed.

(** C9, as the program has it: for a multi-part message the body is the decoded
    data of the first part that is declared text/plain and carries non-empty
    data; the parts before it (text/plain parts without data among them) and
    all the parts after it are ignored, and the body is empty when there is no
    such part.  For a single-part message the body is its decoded data, empty
    when it has none. *)
Theorem message_body_first_plain_with_data
    (b64decode_utf8 : str -> result str) (m : payload) :
  (forall pre p post data,
      parts m = Some (pre ++ p :: post) ->
      is_plain p = true -> part_data p = Some data -> data <> [] ->
      forallb (fun q => negb (is_plain q && has_data q)) pre = true ->
      message_body b64decode_utf8 m = b64decode_utf8 data)
  /\ (forall ps,
      parts m = Some ps ->
      forallb (fun q => negb (is_plain q && has_data q)) ps = true ->
      message_body b64decode_utf8 m = Ok [])
  /\ (parts m = None ->
      message_body b64decode_utf8 m
      = match body_data m with
        | Some (c :: d) => b64decode_utf8 (c :: d)
        | _ => Ok []
        end).
Proof.
  unfold message_body, selected_data. split; [|split].
  - intros pre p post data E Hp Hd Hne Hpre. rewrite E.
    destruct (plain_part_data_spec (pre ++ p :: post)) as [H _].
    rewrite (H pre p post eq_refl Hp); auto.
    + now rewrite Hd.
    + unfold has_data. rewrite Hd. destruct data; [congruence|reflexivity].
  - intros ps E H. rewrite E.
    destruct (plain_part_data_spec ps) as [_ H']. now rewrite H'.
  - intros ->. destruct (body_data m) as [[|c d]|]; reflexivity.
Qed.

Lemma message_body_first_plain_with_data_witness :
  message_body (fun data => Ok data) two_plain_parts = Ok (lit "UnMgNQ==")
  /\ message_body (fun data => Ok data)
       {| headers := []; parts := Some []; body_data := Some (lit "UnMgNQ==") |}
     = Ok []
  /\ message_body (fun data => Ok data)
       {| headers := []; parts := None; body_data := Some (lit "UnMgNQ==") |}
     = Ok (lit "UnMgNQ==").
Proof.
  split; [|split].
  - apply (proj1 (message_body_first_plain_with_data (fun data => Ok data)
                    two_plain_parts)
             [ {| mimeType := Some (lit "text/plain"); part_data := None |} ]
             {| mimeType := Some (lit "text/plain");
                part_data := Some (lit "UnMgNQ==") |}
             [] (lit "UnMgNQ==")).
    + reflexivity.
    + reflexivity.
    + reflexivity.
    + discriminate.
    + reflexivity.
  - apply (proj1 (proj2 (message_body_first_plain_with_data (fun data => Ok data)
             {| headers := []; parts := Some [];
                body_data := Some (lit "UnMgNQ==") |})) []).
    + reflexivity.
    + reflexivity.
  - apply (proj2 (proj2 (message_body_first_plain_with_data (fun data => Ok data)
             {| headers := []; parts := None;
                body_data := Some (lit "UnMgNQ==") |}))).
    reflexivity.
Defined.

(** The sentence of the specification fails on [two_plain_parts]: the first
    text/plain part has no content, and the program decodes the second. *)
Lemma first_plain_part_not_always_selected :
  selected_data two_plain_parts <> spec_selected_data two_plain_parts.
Proof. vm_compute. discriminate. Qed.

Section SyncProperties.
Variable b64decode_utf8 : str -> result str.
Variable parsedate_to_date : str -> option dt.date.
Variable json_dumps : str -> str -> str.
Variable today : dt.date.



End SyncProperties.




(** The run over [three_messages] stores two rows and returns 2. *)
Example sync_three_messages :
  match sync_gmail_expenses (fun data => Ok data) (fun _ => None)
          (fun subject _ => subject) (dt.Date 2024 3 1) three_messages init_db
  with
  | Ok (conn, added) =>
      map (fun e => (e_id e, e_amount e)) (expenses conn)
      = [(1%Z, (100 # 1)%Q); (2%Z, (2501 # 2)%Q)]
      /\ added = 2%Z
  | Raise _ => False
  end.
Proof. vm_compute. split; reflexivity. Qed.

(** C10: [parse_amount] never returns a negative value, yet it can return zero:
    "₹0" gives exactly 0.  A mail whose subject is "₹0" is therefore stored by
    the sync as a row with amount 0, whereas the manual entry of the amount 0
    is refused. *)
Theorem parse_amount_nonneg_may_be_zero :
  (forall text,
      match parse_amount text with
      | Some v => (0 <= v)%Q
      | None => True
      end)
  /\ parse_amount (rupee :: lit "0") = Some 0%Q
  /\ (forall b64decode_utf8 parsedate_to_date json_dumps today conn,
        exists e,
          sync_gmail_expenses b64decode_utf8 parsedate_to_date json_dumps today
            (LastPage [subject_only (rupee :: lit "0")]) conn
          = Ok ({| expenses := expenses conn ++ [e]; seq := seq conn + 1 |},
                1%Z)
          /\ e_amount e = 0%Q)
  /\ (forall today source date merchant description conn,
        api_add_expense today
          {| rq_source := source; rq_date := date; rq_amount := Some 0%Q;
             rq_merchant := merchant; rq_description := description |} conn
        = (Raise (HTTPException 400 (lit "Amount must be > 0")), conn)).
Proof.
  split; [|split; [vm_compute; reflexivity|split]].
  - intros text. rewrite parse_amount_values.
    pose proof (parsed_values_nonneg text) as H.
    destruct (parsed_values text) as [|x xs]; [exact I|].
    destruct (py_max_spec xs x) as (_ & _ & Hin).
    rewrite Forall_forall in H. now apply H.
  - intros. unfold sync_gmail_expenses, sync_pages, sync_messages, sync_message.
    cbn [subject_only headers]. unfold message_body, selected_data.
    cbn [parts body_data truthy bind].
    change (header_value (lit "subject")
              [{| h_name := lit "Subject"; h_value := rupee :: lit "0" |}])
      with (rupee :: lit "0").
    change (parse_amount ((rupee :: lit "0") ++ [10])) with (Some 0%Q).
    cbn [bind]. unfold store_expense. eexists. split; [reflexivity|reflexivity].
  - intros. reflexivity.
Qed.

(** ** Ordering of strings and rows *)

Lemma str_compare_refl a : str_compare a a = Eq.
Proof. induction a as [|x a IH]; simpl; [reflexivity|]. now rewrite N.compare_refl. Qed.

Lemma str_compare_eq a : forall b, str_compare a b = Eq -> a = b.
Proof.
  induction a as [|x a IH]; intros [|y b]; simpl; try discriminate; auto.
  destruct (N.compare_spec x y) as [Hxy|Hxy|Hxy]; try discriminate.
  intros H. subst. f_equal. now apply IH.
Qed.

Lemma str_compare_antisym a : forall b,
  str_compare b a = CompOpp (str_compare a b).
Proof.
  induction a as [|x a IH]; intros [|y b]; simpl; try reflexivity.
  rewrite (N.compare_antisym x y).
  destruct (x ?= y); simpl; auto.
Qed.

Lemma str_compare_lt_trans a : forall b c,
  str_compare a b = Lt -> str_compare b c = Lt -> str_compare a c = Lt.
Proof.
  induction a as [|x a IH]; intros [|y b] [|z c]; simpl; try discriminate; auto.
  destruct (N.compare_spec x y) as [Hxy|Hxy|Hxy];
    destruct (N.compare_spec y z) as [Hyz|Hyz|Hyz]; try discriminate;
    intros H1 H2.
  - subst. rewrite N.compare_refl. eauto.
  - subst. apply N.compare_lt_iff in Hyz. now rewrite Hyz.
  - subst. apply N.compare_lt_iff in Hxy. now rewrite Hxy.
  - assert (Hxz : x < z) by lia. apply N.compare_lt_iff in Hxz. now rewrite Hxz.
Qed.

Lemma str_compare_gt_lt a b : str_compare a b = Gt <-> str_compare b a = Lt.
Proof.
  rewrite (str_compare_antisym a b).
  destruct (str_compare a b); simpl; split; congruence.
Qed.

Lemma str_leb_refl a : str_leb a a = true.
Proof. unfold str_leb. now rewrite str_compare_refl. Qed.

Lemma row_before_total r1 r2 :
  row_before r1 r2 = true \/ row_before r2 r1 = true.
Proof.
  unfold row_before. rewrite (str_compare_antisym (e_date r1) (e_date r2)).
  destruct (str_compare (e_date r1) (e_date r2)); simpl; auto.
  destruct (Z.leb_spec (e_id r2) (e_id r1)); [auto|].
  right. apply Z.leb_le. lia.
Qed.

Lemma row_before_trans r1 r2 r3 :
  row_before r1 r2 = true -> row_before r2 r3 = true ->
  row_before r1 r3 = true.
Proof.
  unfold row_before.
  destruct (str_compare (e_date r1) (e_date r2)) eqn:E12; try discriminate;
    destruct (str_compare (e_date r2) (e_date r3)) eqn:E23; try discriminate;
    intros H1 H2.
  - apply str_compare_eq in E12, E23. rewrite E12, E23, str_compare_refl.
    apply Z.leb_le in H1, H2. apply Z.leb_le. lia.
  - apply str_compare_eq in E12. now rewrite E12, E23.
  - apply str_compare_eq in E23. now rewrite <- E23, E12.
  - apply str_compare_gt_lt in E12, E23.
    pose proof (str_compare_lt_trans _ _ _ E23 E12) as H.
    apply str_compare_gt_lt in H. now rewrite H.
Qed.

Section SortFacts.
Variable A : Type.
Variable before : A -> A -> bool.
Hypothesis before_total : forall x y, before x y = true \/ before y x = true.
Hypothesis before_trans : forall x y z,
  before x y = true -> before y z = true -> before x z = true.

Lemma insert_by_perm x l : Permutation (x :: l) (insert_by before x l).
Proof.
  induction l as [|y l IH]; simpl; [reflexivity|].
  destruct (before x y); [reflexivity|].
  rewrite perm_swap. now constructor.
Qed.

Lemma sort_by_perm l : Permutation l (sort_by before l).
Proof.
  induction l as [|x l IH]; simpl; [constructor|].
  rewrite <- insert_by_perm. now constructor.
Qed.

Lemma insert_by_sorted x l :
  StronglySorted (fun a b => before a b = true) l ->
  StronglySorted (fun a b => before a b = true) (insert_by before x l).
Proof.
  induction 1 as [|y l Hs IH Hy]; simpl.
  - repeat constructor.
  - destruct (before x y) eqn:E.
    + constructor; [now constructor|].
      constructor; [exact E|].
      eapply Forall_impl; [|exact Hy]. intros z Hz. eapply before_trans; eauto.
    + constructor; [exact IH|].
      rewrite <- insert_by_perm. constructor; [|exact Hy].
      destruct (before_total x y); congruence.
Qed.

Lemma sort_by_sorted l :
  StronglySorted (fun a b => before a b = true) (sort_by before l).
Proof.
  induction l as [|x l IH]; simpl; [constructor|].
  now apply insert_by_sorted.
Qed.
End SortFacts.

Lemma rows_full_perm conn start source :
  Permutation (filter (where_clause start source) (expenses conn))
              (rows_full conn start source).
Proof. apply sort_by_perm. Qed.

Lemma NoDup_filter_ids (f : expense -> bool) l :
  NoDup (map e_id l) -> NoDup (map e_id (filter f l)).
Proof.
  induction l as [|x l IH]; simpl; [auto|].
  intros H. inversion H as [|? ? Hx Hl]; subst.
  destruct (f x); simpl; [|auto]. constructor; [|auto].
  intros Hin. apply Hx. apply in_map_iff in Hin as (y & Hy & Hin).
  apply filter_In in Hin as [Hin _]. apply in_map_iff. eauto.
Qed.

(** With distinct identifiers, rows in [ORDER BY] order have strictly
    decreasing keys. *)
Lemma sorted_rows_strict l :
  StronglySorted (fun a b => row_before a b = true) l ->
  NoDup (map e_id l) ->
  StronglySorted key_gt (map view l).
Proof.
  induction 1 as [|x l Hs IH Hx]; simpl; intros Hnd; [constructor|].
  inversion Hnd as [|? ? Hnin Hnd']; subst.
  constructor; [auto|].
  apply Forall_forall. intros v Hv.
  apply in_map_iff in Hv as (y & <- & Hy).
  rewrite Forall_forall in Hx. specialize (Hx y Hy).
  unfold row_before in Hx. unfold key_gt, view; simpl.
  destruct (str_compare (e_date x) (e_date y)) eqn:E; try discriminate.
  - right. split; [now apply str_compare_eq|].
    apply Z.leb_le in Hx.
    assert (e_id x <> e_id y).
    { intros Heq. apply Hnin. rewrite Heq. now apply in_map. }
    lia.
  - now left.
Qed.

Lemma db_ok_init : db_ok init_db.
Proof. split; constructor. Qed.

Lemma db_ok_store conn source date merchant description amount raw :
  db_ok conn ->
  db_ok (store_expense conn source date merchant description amount raw).
Proof.
  intros [Hnd Hle]. unfold db_ok, store_expense. simpl. split.
  - rewrite map_app. simpl.
    apply Permutation_NoDup with (l := (seq conn + 1)%Z :: map e_id (expenses conn)).
    + apply Permutation_cons_append.
    + constructor; [|exact Hnd].
      intros Hin. apply in_map_iff in Hin as (e & He & Hin).
      rewrite Forall_forall in Hle. specialize (Hle e Hin). lia.
  - apply Forall_app. split.
    + eapply Forall_impl; [|exact Hle]. simpl. intros; lia.
    + constructor; [simpl; lia|constructor].
Qed.

Lemma db_ok_add today data conn :
  db_ok conn -> db_ok (snd (api_add_expense today data conn)).
Proof.
  intros H. unfold api_add_expense.
  destruct (Qle_bool _ 0); simpl; [exact H|now apply db_ok_store].
Qed.

(** C8: for every query of the expense table, whatever the start date bound and
    the source filter, the list returned is in strictly decreasing order of
    (date, id): each row has a later date than every row after it, or the same
    date and a larger identifier.  This holds for the ["expenses"] list of every
    summary. *)
Theorem expenses_ordered (conn : db) :
  db_ok conn ->
  (forall start source,
      StronglySorted key_gt (map view (rows_full conn start source)))
  /\ (forall today days source s,
        summarize_expenses conn today days source = Ok s ->
        StronglySorted key_gt (expenses_list s)).
Proof.
  intros [Hnd _].
  assert (H : forall start source,
             StronglySorted key_gt (map view (rows_full conn start source))).
  { intros start source. apply sorted_rows_strict.
    - apply sort_by_sorted; [apply row_before_total|apply row_before_trans].
    - eapply Permutation_NoDup.
      + apply Permutation_map, rows_full_perm.
      + now apply NoDup_filter_ids. }
  split; [exact H|].
  intros today days source s. unfold summarize_expenses.
  destruct (start_date today days) as [start|e]; simpl; [|discriminate].
  destruct (fold_left _ _ _) as [[t bm] bd]. intros [= <-]. simpl. apply H.
Qed.

Lemma expenses_ordered_witness :
  db_ok three_rows
  /\ StronglySorted key_gt (map view (rows_full three_rows None (lit "all")))
  /\ StronglySorted key_gt
       (map view (rows_full three_rows (Some (lit "2024-03-01")) (lit "manual"))).
Proof.
  assert (H : db_ok three_rows).
  { unfold three_rows. repeat apply db_ok_store. apply db_ok_init. }
  split; [exact H|].
  split; apply (proj1 (expenses_ordered H)).
Defined.

(** The three rows come back newest date first, and the later entry first on
    the shared day. *)
Example rows_full_three_rows :
  map (fun v => (v_date v, v_id v))
      (map view (rows_full three_rows None (lit "all")))
  = [(lit "2024-03-05", 2%Z); (lit "2024-03-01", 3%Z); (lit "2024-03-01", 1%Z)].
Proof. vm_compute. reflexivity. Qed.

(** ** The calendar *)

Lemma month_cases m :
  (1 <= m <= 12)%Z ->
  (m = 1 \/ m = 2 \/ m = 3 \/ m = 4 \/ m = 5 \/ m = 6
   \/ m = 7 \/ m = 8 \/ m = 9 \/ m = 10 \/ m = 11 \/ m = 12)%Z.
Proof. lia. Qed.

(** Evaluates the month tables at literal months. *)
Ltac month_tables :=
  cbv [dt.days_before_month dt.days_in_month dt.DAYS_BEFORE_MONTH
       dt.DAYS_IN_MONTH dt.b2z
       andb Z.ltb Z.eqb Z.compare Pos.compare Pos.compare_cont Pos.eqb].

(** Splits a month in 1..12 into its twelve values. *)
Ltac month_split H :=
  apply month_cases in H;
  repeat (destruct H as [H|H]; [subst|]); try subst.

Section Calendar.
Local Open Scope Z_scope.
Import dt.

Lemma days_in_month_table y m :
  days_in_month y m = DAYS_IN_MONTH m + b2z ((m =? 2) && is_leap y).
Proof.
  unfold days_in_month. destruct (Z.eqb_spec m 2) as [->|]; simpl.
  - destruct (is_leap y); reflexivity.
  - lia.
Qed.

Lemma days_before_month_next y m :
  1 <= m <= 11 ->
  days_before_month y (m + 1) = days_before_month y m + days_in_month y m.
Proof.
  intros H. assert (H' : 1 <= m <= 12) by lia.
  month_split H'; try lia; unfold days_before_month, days_in_month;
    destruct (is_leap y); reflexivity.
Qed.

Lemma days_before_month_bounds y m d :
  1 <= m <= 12 -> 1 <= d <= days_in_month y m ->
  1 <= days_before_month y m + d <= 365 + b2z (is_leap y).
Proof.
  intros H. unfold days_before_month, days_in_month.
  month_split H; destruct (is_leap y); month_tables; lia.
Qed.

Lemma days_before_month_mono y m1 d1 m2 d2 :
  1 <= m1 -> m1 < m2 <= 12 ->
  1 <= d1 <= days_in_month y m1 -> 1 <= d2 ->
  days_before_month y m1 + d1 < days_before_month y m2 + d2.
Proof.
  intros H0 H Hd1 Hd2. assert (H1 : 1 <= m1 <= 12) by lia.
  assert (H2 : 1 <= m2 <= 12) by lia.
  revert Hd1 H. unfold days_before_month, days_in_month.
  month_split H1; month_split H2; destruct (is_leap y); month_tables; lia.
Qed.

Lemma is_leap_spec y :
  is_leap y = true <-> y mod 4 = 0 /\ (y mod 100 <> 0 \/ y mod 400 = 0).
Proof.
  unfold is_leap.
  destruct (Z.eqb_spec (y mod 4) 0), (Z.eqb_spec (y mod 100) 0),
    (Z.eqb_spec (y mod 400) 0); simpl; intuition congruence.
Qed.

Lemma days_before_year_next y :
  days_before_year (y + 1) = days_before_year y + 365 + b2z (is_leap y).
Proof.
  pose proof (is_leap_spec y) as L. unfold days_before_year.
  destruct (is_leap y); simpl.
  - destruct (proj1 L eq_refl) as [H4 H]. Z.div_mod_to_equations. lia.
  - assert (H : ~ (y mod 4 = 0 /\ (y mod 100 <> 0 \/ y mod 400 = 0)))
      by (intros K; apply L in K; discriminate).
    Z.div_mod_to_equations. lia.
Qed.

Lemma days_before_year_mono y1 y2 :
  y1 <= y2 -> days_before_year y1 <= days_before_year y2.
Proof.
  intros H. unfold days_before_year. Z.div_mod_to_equations. lia.
Qed.

Lemma days_before_year_cycles a b c e :
  0 <= a -> 0 <= b <= 3 -> 0 <= c <= 24 -> 0 <= e <= 3 ->
  days_before_year (400 * a + 100 * b + 4 * c + e + 1)
  = 146097 * a + 36524 * b + 1461 * c + 365 * e.
Proof.
  intros. unfold days_before_year. Z.div_mod_to_equations. lia.
Qed.

Lemma is_leap_cycles a b c e :
  0 <= a -> 0 <= b <= 3 -> 0 <= c <= 24 -> 0 <= e <= 3 ->
  is_leap (400 * a + 100 * b + 4 * c + e + 1)
  = (e =? 3) && (negb (c =? 24) || (b =? 3)).
Proof.
  intros. apply eq_iff_eq_true. rewrite is_leap_spec.
  rewrite andb_true_iff, orb_true_iff, negb_true_iff, !Z.eqb_eq, Z.eqb_neq.
  Z.div_mod_to_equations. lia.
Qed.

Lemma month_day_spec leapyear n : 0 <= n < 365 -> month_day_ok leapyear n = true.
Proof.
  intros Hn.
  assert (Hall : forallb (month_day_ok leapyear) (map Z.of_nat (List.seq 0 365)) = true)
    by (destruct leapyear; vm_compute; reflexivity).
  rewrite forallb_forall in Hall. apply Hall.
  apply in_map_iff. exists (Z.to_nat n). split; [lia|].
  apply in_seq. lia.
Qed.

(** [ord2ymd] inverts [ymd2ord] on the ordinals of the years 1 to 9999. *)
Lemma ord2ymd_spec n :
  1 <= n <= MAXORDINAL -> valid (ord2ymd n) /\ toordinal (ord2ymd n) = n.
Proof.
  unfold MAXORDINAL. intros Hn.
  unfold ord2ymd, DI400Y, DI100Y, DI4Y. cbv zeta.
  set (n0 := n - 1).
  set (a := n0 / 146097). set (r400 := n0 mod 146097).
  set (b := r400 / 36524). set (r100 := r400 mod 36524).
  set (c := r100 / 1461). set (r4 := r100 mod 1461).
  set (e := r4 / 365). set (r := r4 mod 365).
  assert (F : n = 146097 * a + 36524 * b + 1461 * c + 365 * e + r + 1
              /\ 0 <= a <= 24 /\ 0 <= b <= 4 /\ 0 <= c <= 24 /\ 0 <= e <= 4
              /\ 0 <= r < 365
              /\ (b = 4 -> c = 0 /\ e = 0 /\ r = 0)
              /\ (e = 4 -> r = 0 /\ (c = 24 -> b = 4))).
  { subst a r400 b r100 c r4 e r n0. Z.div_mod_to_equations. lia. }
  destruct F as (En & Ha & Hb & Hc & He & Hr & Hb4 & He4).
  clearbody a b c e r. clear n0 r400 r100 r4.
  destruct ((e =? 4) || (b =? 4)) eqn:Hsp.
  - assert (Ey : exists b' c', 0 <= b' <= 3 /\ 0 <= c' <= 24
                   /\ (c' = 24 -> b' = 3)
                   /\ a * 400 + 1 + (b * 100 + c * 4 + e) - 1
                      = 400 * a + 100 * b' + 4 * c' + 3 + 1
                   /\ n = 146097 * a + 36524 * b' + 1461 * c' + 365 * 3 + 366).
    { apply orb_true_iff in Hsp. rewrite !Z.eqb_eq in Hsp.
      destruct (Z.eq_dec b 4) as [Eb|Nb].
      - exists 3, 24. lia.
      - exists b, c. lia. }
    destruct Ey as (b' & c' & Hb' & Hc' & Hbc & -> & ->).
    unfold valid, toordinal, ymd2ord, MINYEAR, MAXYEAR. cbn [year month day].
    rewrite days_in_month_table. unfold days_before_month.
    rewrite days_before_year_cycles, is_leap_cycles by lia.
    replace (negb (c' =? 24) || (b' =? 3)) with true.
    + month_tables. lia.
    + destruct (Z.eqb_spec c' 24); simpl; [|reflexivity].
      symmetry. apply Z.eqb_eq. auto.
  - apply orb_false_iff in Hsp. rewrite !Z.eqb_neq in Hsp.
    pose proof (@month_day_spec ((e =? 3) && (negb (c =? 24) || (b =? 3))) r Hr)
      as Hmd.
    unfold month_day_ok, month_day in Hmd. cbv zeta in Hmd.
    replace (a * 400 + 1 + (b * 100 + c * 4 + e))
      with (400 * a + 100 * b + 4 * c + e + 1) by lia.
    assert (Hleap := @is_leap_cycles a b c e ltac:(lia) ltac:(lia) ltac:(lia) ltac:(lia)).
    assert (Hdby := @days_before_year_cycles a b c e ltac:(lia) ltac:(lia) ltac:(lia) ltac:(lia)).
    set (y := 400 * a + 100 * b + 4 * c + e + 1) in *.
    set (leap := (e =? 3) && (negb (c =? 24) || (b =? 3))) in *.
    destruct (r <? _);
      rewrite !andb_true_iff, !Z.leb_le, Z.eqb_eq in Hmd;
      destruct Hmd as ((((M1 & M2) & D1) & D2) & E);
      unfold valid, toordinal, ymd2ord, MINYEAR, MAXYEAR; cbn [year month day];
      rewrite days_in_month_table; unfold days_before_month;
      rewrite Hleap, Hdby; subst y; lia.
Qed.

Lemma toordinal_bounds d : valid d -> 1 <= toordinal d <= MAXORDINAL.
Proof.
  unfold valid, toordinal, ymd2ord, MINYEAR, MAXYEAR, MAXORDINAL.
  intros (Hy & Hm & Hd).
  pose proof (days_before_month_bounds _ Hm Hd) as Hb.
  pose proof (is_leap_spec (year d)) as L.
  assert (H0 : 0 <= days_before_year (year d)
               /\ days_before_year (year d) + 365 + b2z (is_leap (year d))
                  <= 3652059).
  { unfold days_before_year. destruct (is_leap (year d)); simpl.
    - destruct (proj1 L eq_refl) as [H4 _]. Z.div_mod_to_equations. lia.
    - Z.div_mod_to_equations. lia. }
  lia.
Qed.

(** Ordinals order the dates chronologically. *)
Lemma toordinal_compare d1 d2 :
  valid d1 -> valid d2 ->
  (toordinal d1 ?= toordinal d2) = date_compare d1 d2.
Proof.
  unfold valid, toordinal, ymd2ord, date_compare.
  intros (Hy1 & Hm1 & Hd1) (Hy2 & Hm2 & Hd2).
  pose proof (days_before_month_bounds _ Hm1 Hd1) as B1.
  pose proof (days_before_month_bounds _ Hm2 Hd2) as B2.
  destruct (Z.compare_spec (year d1) (year d2)) as [Ey|Ly|Ly].
  - rewrite Ey in *.
    destruct (Z.compare_spec (month d1) (month d2)) as [Em|Lm|Lm].
    + rewrite Em. now rewrite Z.add_compare_mono_l.
    + apply Z.compare_lt_iff.
      pose proof (@days_before_month_mono (year d2) (month d1) (day d1)
                    (month d2) (day d2)). lia.
    + apply Z.compare_gt_iff.
      pose proof (@days_before_month_mono (year d2) (month d2) (day d2)
                    (month d1) (day d1)). lia.
  - apply Z.compare_lt_iff.
    pose proof (days_before_year_next (year d1)).
    pose proof (@days_before_year_mono (year d1 + 1) (year d2)). lia.
  - apply Z.compare_gt_iff.
    pose proof (days_before_year_next (year d2)).
    pose proof (@days_before_year_mono (year d2 + 1) (year d1)). lia.
Qed.

Lemma date_compare_eq d1 d2 : date_compare d1 d2 = Eq -> d1 = d2.
Proof.
  unfold date_compare. destruct d1 as [y1 m1 x1], d2 as [y2 m2 x2]. simpl.
  destruct (Z.compare_spec y1 y2); try discriminate.
  destruct (Z.compare_spec m1 m2); try discriminate.
  destruct (Z.compare_spec x1 x2); try discriminate. congruence.
Qed.

Lemma fromordinal_toordinal d : valid d -> fromordinal (toordinal d) = d.
Proof.
  intros Hd. unfold fromordinal.
  destruct (ord2ymd_spec (toordinal_bounds Hd)) as [Hv He].
  apply date_compare_eq. rewrite <- toordinal_compare by assumption.
  rewrite He. apply Z.compare_refl.
Qed.

Lemma fromordinal_spec n :
  1 <= n <= MAXORDINAL -> valid (fromordinal n) /\ toordinal (fromordinal n) = n.
Proof. exact (@ord2ymd_spec n). Qed.

(** *** The ISO form *)

Lemma fmt_dec_length w : forall n, length (fmt_dec w n) = w.
Proof.
  induction w as [|w IH]; intros n; simpl; [reflexivity|].
  rewrite length_app, IH. simpl. lia.
Qed.

Lemma str_compare_app a : forall a' b b',
  length a = length a' ->
  str_compare (a ++ b) (a' ++ b')
  = match str_compare a a' with Eq => str_compare b b' | c => c end.
Proof.
  induction a as [|x a IH]; intros [|x' a'] b b' Hl; simpl in *;
    try discriminate; [reflexivity|].
  destruct (x ?= x')%N; auto.
Qed.

Lemma digit_compare a b :
  0 <= a -> 0 <= b ->
  (Z.to_N (48 + a) ?= Z.to_N (48 + b))%N = (a ?= b).
Proof.
  intros Ha Hb. rewrite Z2N.inj_compare by lia.
  apply Z.add_compare_mono_l.
Qed.

Lemma fmt_dec_compare w : forall a b,
  0 <= a < 10 ^ Z.of_nat w -> 0 <= b < 10 ^ Z.of_nat w ->
  str_compare (fmt_dec w a) (fmt_dec w b) = (a ?= b).
Proof.
  induction w as [|w IH]; intros a b Ha Hb.
  - simpl in *. assert (a = 0) by lia. assert (b = 0) by lia. now subst.
  - rewrite Nat2Z.inj_succ, Z.pow_succ_r in Ha, Hb by lia.
    cbn [fmt_dec]. rewrite str_compare_app by now rewrite !fmt_dec_length.
    rewrite IH by (Z.div_mod_to_equations; lia).
    cbn [str_compare]. rewrite digit_compare by (Z.div_mod_to_equations; lia).
    destruct (Z.compare_spec (a / 10) (b / 10)) as [E|L|L].
    + destruct (Z.compare_spec (a mod 10) (b mod 10)) as [E'|L'|L'];
        symmetry; [apply Z.compare_eq_iff|apply Z.compare_lt_iff
                  |apply Z.compare_gt_iff];
        Z.div_mod_to_equations; lia.
    + symmetry. apply Z.compare_lt_iff. Z.div_mod_to_equations. lia.
    + symmetry. apply Z.compare_gt_iff. Z.div_mod_to_equations. lia.
Qed.

Lemma days_in_month_le_31 y m : 1 <= m <= 12 -> days_in_month y m <= 31.
Proof.
  intros H. unfold days_in_month.
  month_split H; destruct (is_leap y); month_tables; lia.
Qed.

Lemma valid_fields d :
  valid d ->
  0 <= year d < 10 ^ Z.of_nat 4 /\ 0 <= month d < 10 ^ Z.of_nat 2
  /\ 0 <= day d < 10 ^ Z.of_nat 2.
Proof.
  unfold valid, MINYEAR, MAXYEAR. intros (Hy & Hm & Hd).
  pose proof (@days_in_month_le_31 (year d) (month d) Hm).
  change (10 ^ Z.of_nat 4) with 10000. change (10 ^ Z.of_nat 2) with 100. lia.
Qed.

(** ISO dates compare as strings the way the dates compare. *)
Lemma isoformat_compare d1 d2 :
  valid d1 -> valid d2 ->
  str_compare (isoformat d1) (isoformat d2) = date_compare d1 d2.
Proof.
  intros H1 H2.
  destruct (valid_fields H1) as (Y1 & M1 & D1).
  destruct (valid_fields H2) as (Y2 & M2 & D2).
  unfold isoformat, date_compare.
  rewrite str_compare_app by now rewrite !fmt_dec_length.
  rewrite fmt_dec_compare by assumption.
  destruct (year d1 ?= year d2); try reflexivity.
  cbn [str_compare]. rewrite N.compare_refl.
  rewrite str_compare_app by now rewrite !fmt_dec_length.
  rewrite fmt_dec_compare by assumption.
  destruct (month d1 ?= month d2); try reflexivity.
  cbn [str_compare]. rewrite N.compare_refl.
  now apply fmt_dec_compare.
Qed.

(** On ISO dates, the WHERE clause's [date >= ?] is the chronological order. *)
Lemma str_leb_isoformat d1 d2 :
  valid d1 -> valid d2 ->
  (str_leb (isoformat d1) (isoformat d2) = true
   <-> toordinal d1 <= toordinal d2).
Proof.
  intros H1 H2. unfold str_leb.
  rewrite isoformat_compare, <- toordinal_compare by assumption.
  destruct (Z.compare_spec (toordinal d1) (toordinal d2));
    split; intros; try reflexivity; try discriminate; lia.
Qed.
End Calendar.

(** ** The date window of summarize_expenses *)

Lemma where_clause_spec start source r :
  where_clause start source r = true
  <-> match start with
      | Some s => str_leb s (e_date r) = true
      | None => True
      end /\ source_matches source r.
Proof.
  unfold where_clause, source_matches. rewrite andb_true_iff.
  assert (H : (if str_eqb source (lit "all") then true
               else str_eqb (e_source r) source) = true
              <-> source = lit "all" \/ e_source r = source).
  { destruct (str_eqb source (lit "all")) eqn:E.
    - apply str_eqb_eq in E. tauto.
    - rewrite str_eqb_eq. split; [auto|]. intros [K|K]; [|exact K].
      apply str_eqb_eq in K. congruence. }
  rewrite H. destruct start; intuition.
Qed.

Lemma rows_full_In conn start source v :
  In v (map view (rows_full conn start source))
  <-> exists r, In r (expenses conn) /\ v = view r
                /\ match start with
                   | Some s => str_leb s (e_date r) = true
                   | None => True
                   end /\ source_matches source r.
Proof.
  rewrite in_map_iff. split.
  - intros (r & <- & Hr).
    apply (Permutation_in _ (Permutation_sym (rows_full_perm conn start source)))
      in Hr.
    apply filter_In in Hr as [Hr Hw]. apply where_clause_spec in Hw.
    exists r. tauto.
  - intros (r & Hr & -> & Hw). exists r. split; [reflexivity|].
    apply (Permutation_in _ (rows_full_perm conn start source)).
    apply filter_In. split; [exact Hr|]. now apply where_clause_spec.
Qed.

Lemma summarize_expenses_list conn today days source start :
  start_date today days = Ok start ->
  exists s, summarize_expenses conn today days source = Ok s
            /\ expenses_list s = map view (rows_full conn start source).
Proof.
  intros E. unfold summarize_expenses. rewrite E. cbn [bind].
  destruct (fold_left _ _ _) as [[t bm] bd]. eexists. split; reflexivity.
Qed.

(** C2, as the program has it: for every [days > 0] up to the ordinal of today
    (so that today - (days-1) is a date of the years 1..9999), the records
    returned are exactly those that pass the source filter and whose date is,
    as a string, at or after the ISO form of today - (days-1); for records
    holding ISO dates that is the inclusive window ending today: the date
    today - (days-1) is in, today - days is out, today is in.  For larger
    [days] the call raises [OverflowError].  For [days <= 0] no lower date
    bound applies. *)
Theorem summarize_window conn today days source :
  dt.valid today ->
  ((0 < days <= dt.toordinal today)%Z ->
   exists start s,
     dt.sub_days today (days - 1) = Ok start
     /\ dt.valid start
     /\ dt.toordinal start = (dt.toordinal today - (days - 1))%Z
     /\ summarize_expenses conn today days source = Ok s
     /\ (forall v, In v (expenses_list s) <->
           exists r, In r (expenses conn) /\ v = view r
                     /\ str_leb (dt.isoformat start) (e_date r) = true
                     /\ source_matches source r)
     /\ (forall d, dt.valid d ->
           (str_leb (dt.isoformat start) (dt.isoformat d) = true
            <-> (dt.toordinal today - (days - 1) <= dt.toordinal d)%Z)))
  /\ ((dt.toordinal today < days)%Z ->
      summarize_expenses conn today days source = Raise OverflowError)
  /\ ((days <= 0)%Z ->
      exists s,
        summarize_expenses conn today days source = Ok s
        /\ forall v, In v (expenses_list s) <->
             exists r, In r (expenses conn) /\ v = view r
                       /\ source_matches source r).
Proof.
  intros Hv. pose proof (toordinal_bounds Hv) as Hb. unfold dt.MAXORDINAL in Hb.
  split; [|split].
  - intros Hd.
    assert (Es : dt.sub_days today (days - 1)
                 = Ok (dt.fromordinal (dt.toordinal today - (days - 1)))).
    { unfold dt.sub_days, dt.MAXORDINAL.
      destruct (Z.ltb_spec 999999999 (Z.abs (days - 1))); [lia|].
      destruct (Z.ltb_spec 0 (dt.toordinal today - (days - 1))); [|lia].
      destruct (Z.leb_spec (dt.toordinal today - (days - 1)) 3652059); [|lia].
      reflexivity. }
    destruct (@fromordinal_spec (dt.toordinal today - (days - 1))%Z)
      as [Hvs Hos]; [unfold dt.MAXORDINAL; lia|].
    set (start := dt.fromordinal (dt.toordinal today - (days - 1))) in *.
    assert (E : start_date today days = Ok (Some (dt.isoformat start))).
    { unfold start_date. destruct (Z.ltb_spec 0 days); [|lia]. now rewrite Es. }
    destruct (@summarize_expenses_list conn today days source _ E)
      as (s & Hs & Hl).
    exists start, s.
    split; [exact Es|]. split; [exact Hvs|]. split; [exact Hos|].
    split; [exact Hs|]. split.
    + intros v. rewrite Hl, rows_full_In. reflexivity.
    + intros d Hd'. rewrite <- Hos. now apply str_leb_isoformat.
  - intros Hd. unfold summarize_expenses, start_date.
    destruct (Z.ltb_spec 0 days); [|lia].
    unfold dt.sub_days, dt.MAXORDINAL.
    destruct (Z.ltb_spec 999999999 (Z.abs (days - 1))); [reflexivity|].
    destruct (Z.ltb_spec 0 (dt.toordinal today - (days - 1))); [lia|].
    reflexivity.
  - intros Hd.
    assert (E : start_date today days = Ok None).
    { unfold start_date. destruct (Z.ltb_spec 0 days); [lia|reflexivity]. }
    destruct (@summarize_expenses_list conn today days source _ E)
      as (s & Hs & Hl).
    exists s. split; [exact Hs|]. intros v. rewrite Hl, rows_full_In.
    split; intros (r & H); exists r; tauto.
Qed.

Lemma summarize_window_witness :
  dt.valid (dt.Date 2024 3 5)
  /\ exists start s,
      dt.sub_days (dt.Date 2024 3 5) (5 - 1) = Ok start
      /\ dt.valid start
      /\ dt.toordinal start = (dt.toordinal (dt.Date 2024 3 5) - (5 - 1))%Z
      /\ summarize_expenses three_rows (dt.Date 2024 3 5) 5 (lit "all") = Ok s
      /\ (forall v, In v (expenses_list s) <->
            exists r, In r (expenses three_rows) /\ v = view r
                      /\ str_leb (dt.isoformat start) (e_date r) = true
                      /\ source_matches (lit "all") r)
      /\ (forall d, dt.valid d ->
            (str_leb (dt.isoformat start) (dt.isoformat d) = true
             <-> (dt.toordinal (dt.Date 2024 3 5) - (5 - 1)
                  <= dt.toordinal d)%Z)).
Proof.
  assert (H : dt.valid (dt.Date 2024 3 5)).
  { unfold dt.valid. vm_compute. intuition discriminate. }
  split; [exact H|].
  apply (proj1 (@summarize_window three_rows (dt.Date 2024 3 5) 5 (lit "all") H)).
  vm_compute. intuition discriminate.
Defined.

(** With a window far longer than the calendar, the call raises. *)
Lemma summarize_window_overflow :
  (0 < 1000000)%Z
  /\ summarize_expenses three_rows (dt.Date 2026 11 4) 1000000 (lit "all")
     = Raise OverflowError.
Proof. split; [reflexivity|vm_compute; reflexivity]. Qed.

(** On [three_rows], seen on 2024-03-05: a window of five days reaches back to
    2024-03-01 and returns the three rows; a window of four days starts on
    2024-03-02 and leaves the two rows of 2024-03-01 out. *)
Example summarize_three_rows :
  match summarize_expenses three_rows (dt.Date 2024 3 5) 5 (lit "all"),
        summarize_expenses three_rows (dt.Date 2024 3 5) 4 (lit "all") with
  | Ok s5, Ok s4 =>
      map v_id (expenses_list s5) = [2; 3; 1]%Z
      /\ map v_id (expenses_list s4) = [2]%Z
  | _, _ => False
  end.
Proof. vm_compute. split; reflexivity. Qed.

(** ** The insights *)

Section Insights.
Local Open Scope Z_scope.
Import dt.

Lemma new_valid y m d :
  valid (Date y m d) -> new y m d = Ok (Date y m d).
Proof.
  unfold valid, new. cbn [year month day]. intros (Hy & Hm & Hd).
  destruct (Z.leb_spec MINYEAR y); [|lia].
  destruct (Z.leb_spec y MAXYEAR); [|lia].
  destruct (Z.leb_spec 1 m); [|lia]. destruct (Z.leb_spec m 12); [|lia].
  destruct (Z.leb_spec 1 d); [|lia].
  destruct (Z.leb_spec d (days_in_month y m)); [|lia]. reflexivity.
Qed.

Lemma days_in_month_ge_28 y m : 1 <= m <= 12 -> 28 <= days_in_month y m.
Proof.
  intros H. unfold days_in_month.
  month_split H; destruct (is_leap y); month_tables; lia.
Qed.

(** The day before the first of a month is the last day of the month before. *)
Lemma sub_days_first y m :
  MINYEAR <= y <= MAXYEAR -> 1 <= m <= 11 ->
  sub_days (Date y (m + 1) 1) 1 = Ok (Date y m (days_in_month y m)).
Proof.
  intros Hy Hm.
  assert (Hv : valid (Date y m (days_in_month y m))).
  { unfold valid. cbn [year month day].
    pose proof (@days_in_month_ge_28 y m). lia. }
  assert (E : toordinal (Date y (m + 1) 1) - 1
              = toordinal (Date y m (days_in_month y m))).
  { unfold toordinal, ymd2ord. cbn [year month day].
    rewrite days_before_month_next by assumption. lia. }
  pose proof (toordinal_bounds Hv) as B.
  unfold sub_days. change (999999999 <? Z.abs 1) with false. cbv iota.
  rewrite E.
  destruct (Z.ltb_spec 0 (toordinal (Date y m (days_in_month y m)))); [|lia].
  destruct (Z.leb_spec (toordinal (Date y m (days_in_month y m))) MAXORDINAL);
    [|lia].
  cbn [andb]. now rewrite fromordinal_toordinal.
Qed.

(** The day before 1 January is 31 December of the year before, when there is
    one. *)
Lemma sub_days_new_year y :
  MINYEAR < y <= MAXYEAR -> sub_days (Date y 1 1) 1 = Ok (Date (y - 1) 12 31).
Proof.
  intros Hy.
  assert (Hv : valid (Date (y - 1) 12 31)).
  { unfold valid, MINYEAR, MAXYEAR in *. cbn [year month day].
    unfold days_in_month. month_tables. lia. }
  assert (E : toordinal (Date y 1 1) - 1 = toordinal (Date (y - 1) 12 31)).
  { unfold toordinal, ymd2ord. cbn [year month day].
    replace y with (y - 1 + 1) at 1 by lia.
    rewrite days_before_year_next. unfold days_before_month.
    replace (y - 1 + 1) with y by lia.
    destruct (is_leap y), (is_leap (y - 1)); month_tables; lia. }
  pose proof (toordinal_bounds Hv) as B.
  unfold sub_days. change (999999999 <? Z.abs 1) with false. cbv iota.
  rewrite E.
  destruct (Z.ltb_spec 0 (toordinal (Date (y - 1) 12 31))); [|lia].
  destruct (Z.leb_spec (toordinal (Date (y - 1) 12 31)) MAXORDINAL); [|lia].
  cbn [andb]. now rewrite fromordinal_toordinal.
Qed.

(** For a month other than the current one and other than December of year 1,
    [days_so_far] is the number of days of the month; December gives 31. *)
Lemma days_so_far_days_in_month now y m :
  MINYEAR <= y <= MAXYEAR -> 1 <= m <= 12 ->
  ~ (year now = y /\ month now = m) ->
  ~ (y = 1 /\ m = 12) ->
  days_so_far now y m = Ok (days_in_month y m).
Proof.
  intros Hy Hm Hnow H1. unfold days_so_far.
  assert (T : (year now =? y) && (month now =? m) = false).
  { apply andb_false_iff. rewrite !Z.eqb_neq. lia. }
  rewrite T. destruct (Z.eq_dec m 12) as [->|Hm12].
  - change (12 mod 12 + 1) with 1.
    rewrite new_valid.
    + cbn [bind]. rewrite sub_days_new_year by (unfold MINYEAR in *; lia).
      reflexivity.
    + unfold valid. cbn [year month day]. unfold days_in_month. month_tables.
      lia.
  - replace (m mod 12 + 1) with (m + 1) by (Z.div_mod_to_equations; lia).
    rewrite new_valid.
    + cbn [bind]. rewrite sub_days_first by lia. reflexivity.
    + unfold valid. cbn [year month day].
      pose proof (@days_in_month_ge_28 y (m + 1)). lia.
Qed.

(** December of year 1: the first of "next" month is 1 January of year 1, and
    no date precedes it. *)
Lemma days_so_far_first_december now :
  ~ (year now = 1 /\ month now = 12) ->
  days_so_far now 1 12 = Raise OverflowError.
Proof.
  intros H. unfold days_so_far.
  assert (T : (year now =? 1) && (month now =? 12) = false).
  { apply andb_false_iff. rewrite !Z.eqb_neq. lia. }
  rewrite T. reflexivity.
Qed.
End Insights.

(** *** Month keys *)

Lemma digits_val_app a c :
  digits_val (a ++ [c]) = digits_val a * 10 + digit_val c.
Proof. unfold digits_val. now rewrite fold_left_app. Qed.

Lemma fmt_dec_digits w : forall n,
  (0 <= n)%Z -> forallb is_digit (dt.fmt_dec w n) = true.
Proof.
  induction w as [|w IH]; intros n Hn; cbn [dt.fmt_dec]; [reflexivity|].
  rewrite forallb_app, IH by (Z.div_mod_to_equations; lia). cbn [forallb andb].
  rewrite andb_true_r. unfold is_digit. apply andb_true_iff.
  rewrite !N.leb_le. pose proof (Z.mod_pos_bound n 10 eq_refl). lia.
Qed.

Lemma fmt_dec_val w : forall n,
  (0 <= n < 10 ^ Z.of_nat w)%Z -> digits_val (dt.fmt_dec w n) = Z.to_N n.
Proof.
  induction w as [|w IH]; intros n Hn.
  - simpl in *. assert (n = 0)%Z by lia. now subst.
  - rewrite Nat2Z.inj_succ, Z.pow_succ_r in Hn by lia.
    cbn [dt.fmt_dec]. rewrite digits_val_app, IH
      by (Z.div_mod_to_equations; lia).
    unfold digit_val. pose proof (Z.mod_pos_bound n 10 eq_refl).
    pose proof (Z.div_mod n 10 ltac:(lia)).
    assert (0 <= n / 10)%Z by (apply Z.div_pos; lia). lia.
Qed.

Lemma int_fmt_dec w n :
  (0 < w)%nat -> (0 <= n < 10 ^ Z.of_nat w)%Z -> int (dt.fmt_dec w n) = Some n.
Proof.
  intros Hw Hn. unfold int.
  rewrite fmt_dec_digits, fmt_dec_val by lia.
  destruct (dt.fmt_dec w n) eqn:E.
  - apply (f_equal (@length _)) in E. rewrite fmt_dec_length in E.
    simpl in E. lia.
  - f_equal. lia.
Qed.

Lemma split_digits a :
  forallb is_digit a = true -> split dash a = [a].
Proof.
  induction a as [|c a IH]; simpl; [reflexivity|].
  intros H. apply andb_true_iff in H as [Hc H]. rewrite (IH H).
  destruct (N.eqb_spec c dash) as [->|]; [discriminate Hc|reflexivity].
Qed.

Lemma split_digits_dash a b :
  forallb is_digit a = true -> split dash (a ++ dash :: b) = a :: split dash b.
Proof.
  induction a as [|c a IH]; simpl; [reflexivity|].
  intros H. apply andb_true_iff in H as [Hc H]. rewrite (IH H).
  destruct (N.eqb_spec c dash) as [->|]; [discriminate Hc|reflexivity].
Qed.

Lemma year_month_key y m :
  (0 <= y < 10000)%Z -> (0 <= m < 100)%Z ->
  year_month (month_key y m) = Ok (y, m).
Proof.
  intros Hy Hm. unfold year_month, month_key.
  rewrite split_digits_dash, split_digits by (apply fmt_dec_digits; lia).
  cbn [map]. rewrite !int_fmt_dec; try lia; reflexivity.
Qed.

(** *** Dictionaries and sorted keys *)

Lemma dict_get_In (d : dict) k :
  In k (map fst d) -> exists v, dict_get d k = Some v.
Proof.
  induction d as [|[k' v'] d IH]; simpl; [contradiction|].
  intros H. destruct (str_eqb k' k) eqn:E; [eauto|].
  destruct H as [H|H]; [|auto].
  apply str_eqb_eq in H. congruence.
Qed.

Lemma last_In {A} (l : list A) d : l <> [] -> In (last l d) l.
Proof.
  induction l as [|x l IH]; [congruence|]. intros _.
  destruct l as [|y l]; [now left|].
  right. apply IH. discriminate.
Qed.

Lemma second_last_In l : (2 <= length l)%nat -> In (second_last l) l.
Proof. intros H. unfold second_last. apply nth_In. lia. Qed.

Lemma sorted_In l k : In k (sorted l) <-> In k l.
Proof.
  unfold sorted. split; apply Permutation_in;
    [symmetry|]; apply sort_by_perm.
Qed.

Lemma sorted_length l : length (sorted l) = length l.
Proof. symmetry. apply Permutation_length, sort_by_perm. Qed.

(** *** The percent-change sentence *)

Lemma dict_item_get0 (d : dict) k v : dict_item d k = Ok v -> dict_get0 d k = v.
Proof.
  unfold dict_item, dict_get0. destruct (dict_get d k); congruence.
Qed.

Lemma Qle_bool_false_lt (x : Q) : Qle_bool x 0 = false <-> (0 < x)%Q.
Proof.
  split.
  - intros H. apply Qnot_le_lt. intros K. apply Qle_bool_iff in K. congruence.
  - intros H. destruct (Qle_bool x 0) eqn:E; [|reflexivity].
    apply Qle_bool_iff in E. now apply Qle_not_lt in E.
Qed.

Lemma change_insight_spec bm months last last_spend more :
  change_insight bm months last last_spend = Ok more ->
  let prev := second_last months in
  let prev_spend := dict_get0 bm prev in
  let diff := (last_spend - prev_spend)%Q in
  (more = [Change last (Qabs (diff / prev_spend * 100))
             (if negb (Qle_bool diff 0) then lit "higher" else lit "lower")
             prev]
   /\ (2 <= length months)%nat /\ (0 < prev_spend)%Q)
  \/ (more = [] /\ ~ ((2 <= length months)%nat /\ (0 < prev_spend)%Q)).
Proof.
  unfold change_insight. cbv zeta.
  destruct (Nat.leb_spec 2 (length months)) as [Hl|Hl].
  - destruct (dict_item bm (second_last months)) as [prev_spend|e] eqn:Ed;
      [|discriminate].
    apply dict_item_get0 in Ed. rewrite Ed. cbn [bind].
    destruct (Qle_bool prev_spend 0) eqn:Eq; cbn [negb]; intros [= <-].
    + right. split; [reflexivity|]. intros [_ H].
      apply Qle_bool_false_lt in H. congruence.
    + left. apply Qle_bool_false_lt in Eq. auto.
  - intros [= <-]. right. split; [reflexivity|]. intros [H _]. lia.
Qed.

Lemma change_insight_total bm months last last_spend :
  (forall k, In k months -> In k (map fst bm)) ->
  exists more, change_insight bm months last last_spend = Ok more.
Proof.
  intros Hk. unfold change_insight.
  destruct (Nat.leb_spec 2 (length months)) as [Hl|Hl]; [|eauto].
  destruct (dict_get_In bm (second_last months)) as [v Hv].
  { apply Hk. now apply second_last_In. }
  unfold dict_item. rewrite Hv. cbn [bind].
  destruct (negb (Qle_bool v 0)); eauto.
Qed.

(** The shape of the result of [build_insights] on a non-empty [by_month]. *)
Lemma build_insights_ok today s ins :
  build_insights today s = Ok ins ->
  by_month s <> [] ->
  let months := sorted (map fst (by_month s)) in
  exists last_spend avg more,
    ins = Spending (last months []) last_spend avg :: more
    /\ dict_get0 (by_month s) (last months []) = last_spend
    /\ change_insight (by_month s) months (last months []) last_spend = Ok more.
Proof.
  unfold build_insights. cbv zeta. intros H Hne.
  destruct (by_month s) as [|kv bm] eqn:Ebm; [congruence|].
  destruct (dict_item _ _) as [last_spend|] eqn:E1; [|discriminate].
  cbn [bind] in H.
  destruct (year_month _) as [ym|]; [|discriminate]. cbn [bind] in H.
  destruct (days_so_far _ _ _) as [days|]; [|discriminate]. cbn [bind] in H.
  destruct (change_insight _ _ _ _) as [more|] eqn:E2; [|discriminate].
  cbn [bind] in H. injection H as <-.
  apply dict_item_get0 in E1. eauto 8.
Qed.



(** The report on [two_months]: 250 over the 29 days of February 2024, and a
    rise of 25 percent over January. *)
Example build_insights_two_months :
  build_insights (dt.Date 2026 11 4) two_months
  = Ok [Spending (lit "2024-02") (250 # 1) (250 # 29);
        Change (lit "2024-02") (5000 # 200) (lit "higher") (lit "2024-01")].
Proof. vm_compute. reflexivity. Qed.


(** *** The daily average *)

(** X10: for a latest month that is a calendar month of the years 1..9999, is
    not the current month and is not December of the year 1, the "days so far"
    are the number of days of that month (28 to 31, leap years included), and
    the report divides the month's total by it. *)
Lemma build_insights_days_in_month today s y m :
  (dt.MINYEAR <= y <= dt.MAXYEAR)%Z -> (1 <= m <= 12)%Z ->
  ~ (dt.year today = y /\ dt.month today = m) ->
  ~ (y = 1 /\ m = 12)%Z ->
  by_month s <> [] ->
  last (sorted (map fst (by_month s))) [] = month_key y m ->
  days_so_far today y m = Ok (dt.days_in_month y m)
  /\ exists last_spend more,
      build_insights today s
      = Ok (Spending (month_key y m) last_spend
              (last_spend / inject_Z (dt.days_in_month y m)) :: more).
Proof.
  intros Hy Hm Hnow H1 Hne Hlast.
  pose proof (days_so_far_days_in_month today Hy Hm Hnow H1) as Hd.
  split; [exact Hd|].
  unfold build_insights. cbv zeta.
  destruct (by_month s) as [|kv bm] eqn:Ebm; [congruence|].
  rewrite Hlast.
  assert (Hin : In (month_key y m) (map fst (kv :: bm))).
  { rewrite <- Hlast. apply sorted_In, last_In.
    intros K. apply (f_equal (@length _)) in K.
    rewrite sorted_length in K. discriminate K. }
  destruct (dict_get_In _ _ Hin) as [v Hv].
  unfold dict_item at 1. rewrite Hv. cbn [bind].
  unfold dt.MINYEAR, dt.MAXYEAR in Hy.
  rewrite year_month_key by lia. cbn [bind fst snd]. rewrite Hd. cbn [bind].
  pose proof (@days_in_month_ge_28 y m Hm) as H28.
  destruct (Z.eqb_spec (dt.days_in_month y m) 0) as [K|_]; [lia|].
  destruct (@change_insight_total (kv :: bm) (sorted (map fst (kv :: bm)))
              (month_key y m) v) as [more Hmore].
  { intros k. apply sorted_In. }
  rewrite Hmore. cbn [bind]. eauto.
Qed.

(** C4, at the input where the program fails: when the latest month is
    December of the year 1 (a month of 31 days, and not the current month), the
    first day of the "next" month is 1 January of the year 1, the day before it
    is outside the calendar, and [build_insights] raises [OverflowError]
    instead of dividing by 31.  The input is reachable: one manual entry dated
    0001-12-25, summarized over all history. *)
Theorem build_insights_first_december :
  dt.days_in_month 1 12 = 31%Z
  /\ days_so_far (dt.Date 2026 11 4) 1 12 = Raise OverflowError
  /\ build_insights (dt.Date 2026 11 4) first_december = Raise OverflowError
  /\ (s <- summarize_expenses first_december_db (dt.Date 2026 11 4) 0 (lit "all") ;;
      build_insights (dt.Date 2026 11 4) s) = Raise OverflowError.
Proof. repeat split; vm_compute; reflexivity. Qed.

(** Every other December resolves to 31, and February to 28 or 29. *)
Example days_so_far_examples :
  days_so_far (dt.Date 2026 11 4) 2023 12 = Ok 31%Z
  /\ days_so_far (dt.Date 2026 11 4) 2 12 = Ok 31%Z
  /\ days_so_far (dt.Date 2026 11 4) 9999 12 = Ok 31%Z
  /\ days_so_far (dt.Date 2026 11 4) 2024 2 = Ok 29%Z
  /\ days_so_far (dt.Date 2026 11 4) 1900 2 = Ok 28%Z
  /\ days_so_far (dt.Date 2026 11 4) 2026 11 = Ok 4%Z.
Proof. repeat split; vm_compute; reflexivity. Qed.

(** ** The aggregates of summarize_expenses *)

Lemma fold_left_Qplus l : forall a, (fold_left Qplus l a == a + Qsum l)%Q.
Proof.
  unfold Qsum. induction l as [|x l IH]; intros a; simpl.
  - ring.
  - rewrite (IH (a + x)%Q), (IH (0 + x)%Q). ring.
Qed.

Lemma Qsum_cons x l : (Qsum (x :: l) == x + Qsum l)%Q.
Proof. unfold Qsum at 1. simpl. rewrite fold_left_Qplus. ring. Qed.

Lemma Qsum_app l1 l2 : (Qsum (l1 ++ l2) == Qsum l1 + Qsum l2)%Q.
Proof.
  induction l1 as [|x l1 IH]; simpl.
  - unfold Qsum at 2. simpl. ring.
  - rewrite !Qsum_cons, IH. ring.
Qed.


Lemma Qsum_nonneg l : Forall (fun x => (0 <= x)%Q) l -> (0 <= Qsum l)%Q.
Proof.
  induction 1 as [|x l Hx _ IH].
  - apply Qle_refl.
  - rewrite Qsum_cons. replace 0%Q with (0 + 0)%Q by reflexivity.
    now apply Qplus_le_compat.
Qed.

Lemma str_eqb_refl a : str_eqb a a = true.
Proof. now apply str_eqb_eq. Qed.

Lemma str_eqb_neq a b : str_eqb a b = false <-> a <> b.
Proof.
  unfold str_eqb. destruct (list_eq_dec N.eq_dec a b); split; congruence.
Qed.

Lemma dict_get_set (d : dict) k v k' :
  dict_get (dict_set d k v) k'
  = if str_eqb k k' then Some v else dict_get d k'.
Proof.
  induction d as [|[k0 v0] d IH]; simpl.
  - destruct (str_eqb k k'); reflexivity.
  - destruct (str_eqb k0 k) eqn:E0; simpl.
    + apply str_eqb_eq in E0. subst k0. destruct (str_eqb k k'); reflexivity.
    + rewrite IH. destruct (str_eqb k0 k') eqn:E1; [|reflexivity].
      apply str_eqb_eq in E1. subst k0.
      destruct (str_eqb k k') eqn:E2; [|reflexivity].
      apply str_eqb_eq in E2. subst. rewrite str_eqb_refl in E0. discriminate.
Qed.

Lemma dict_set_keys (d : dict) k v :
  (In k (map fst d) -> map fst (dict_set d k v) = map fst d)
  /\ (~ In k (map fst d) -> map fst (dict_set d k v) = map fst d ++ [k]).
Proof.
  induction d as [|[k0 v0] d [IH1 IH2]]; simpl.
  - split; [contradiction|reflexivity].
  - destruct (str_eqb k0 k) eqn:E; simpl.
    + apply str_eqb_eq in E. subst. split; [reflexivity|]. intros H.
      contradiction H. now left.
    + apply str_eqb_neq in E. split.
      * intros [H|H]; [congruence|]. now rewrite IH1.
      * intros H. rewrite IH2; [reflexivity|]. intros K. apply H. now right.
Qed.


Section Accumulate.
Variable key : expense -> str.

Lemma accumulate_get0 rows : forall d k,
  (dict_get0 (accumulate key rows d) k
   == dict_get0 d k + Qsum (map e_amount (bucket key k rows)))%Q.
Proof.
  unfold accumulate, bucket.
  induction rows as [|r rows IH]; intros d k; simpl.
  - unfold Qsum. simpl. ring.
  - rewrite IH. unfold dict_get0 at 1. rewrite dict_get_set.
    destruct (str_eqb (key r) k) eqn:E; simpl.
    + apply str_eqb_eq in E. subst k. rewrite Qsum_cons. ring.
    + fold (dict_get0 d k). reflexivity.
Qed.

Lemma accumulate_keys rows : forall d k,
  In k (map fst (accumulate key rows d))
  <-> In k (map fst d) \/ exists r, In r rows /\ key r = k.
Proof.
  unfold accumulate. induction rows as [|r rows IH]; intros d k; simpl.
  - split; [auto|]. intros [H|(r & [] & _)]. exact H.
  - rewrite IH.
    destruct (dict_set_keys d (key r) (dict_get0 d (key r) + e_amount r)%Q)
      as [K1 K2].
    destruct (in_dec (list_eq_dec N.eq_dec) (key r) (map fst d)) as [Hin|Hin].
    + rewrite (K1 Hin). split.
      * intros [H|(r' & H & E)]; eauto.
      * intros [H|(r' & [->|H] & E)]; [auto|subst; auto|eauto].
    + rewrite (K2 Hin), in_app_iff. simpl. split.
      * intros [[H|[H|[]]]|(r' & H & E)]; eauto.
      * intros [H|(r' & [->|H] & E)]; [auto|subst; auto|eauto].
Qed.

Lemma accumulate_NoDup rows : forall d,
  NoDup (map fst d) -> NoDup (map fst (accumulate key rows d)).
Proof.
  unfold accumulate. induction rows as [|r rows IH]; intros d Hd; simpl.
  - exact Hd.
  - apply IH.
    destruct (dict_set_keys d (key r) (dict_get0 d (key r) + e_amount r)%Q)
      as [K1 K2].
    destruct (in_dec (list_eq_dec N.eq_dec) (key r) (map fst d)) as [Hin|Hin].
    + now rewrite (K1 Hin).
    + rewrite (K2 Hin). apply NoDup_app; [exact Hd|repeat constructor; auto|].
      intros x Hx [<-|[]]. contradiction.
Qed.

End Accumulate.

(** The three accumulators of the loop, one by one. *)
Lemma summarize_components conn today days source start :
  start_date today days = Ok start ->
  summarize_expenses conn today days source
  = Ok {| total := fold_left Qplus (map e_amount (filtered conn start source)) 0%Q;
          by_month := accumulate month_of (filtered conn start source) [];
          by_day := accumulate e_date (filtered conn start source) [];
          expenses_list := map view (rows_full conn start source) |}.
Proof.
  intros E. unfold summarize_expenses. rewrite E. cbn [bind].
  fold (filtered conn start source).
  assert (H : forall rows t bm bd,
             fold_left
               (fun '(total, by_month, by_day) r =>
                  let amount := e_amount r in
                  let month_key := firstn 7 (e_date r) in
                  ((total + amount)%Q,
                   dict_set by_month month_key
                     (dict_get0 by_month month_key + amount)%Q,
                   dict_set by_day (e_date r)
                     (dict_get0 by_day (e_date r) + amount)%Q))
               rows (t, bm, bd)
             = (fold_left Qplus (map e_amount rows) t,
                accumulate month_of rows bm, accumulate e_date rows bd)).
  { induction rows as [|r rows IH]; intros t bm bd; [reflexivity|].
    cbn [fold_left map]. rewrite IH. reflexivity. }
  now rewrite H.
Qed.

Lemma summarize_ok_start conn today days source s :
  summarize_expenses conn today days source = Ok s ->
  exists start, start_date today days = Ok start.
Proof.
  unfold summarize_expenses.
  destruct (start_date today days) as [start|e]; [eauto|discriminate].
Qed.

Lemma summary_components conn today days source s :
  summarize_expenses conn today days source = Ok s ->
  exists start,
    start_date today days = Ok start
    /\ total s = fold_left Qplus (map e_amount (filtered conn start source)) 0%Q
    /\ by_month s = accumulate month_of (filtered conn start source) []
    /\ by_day s = accumulate e_date (filtered conn start source) []
    /\ expenses_list s = map view (rows_full conn start source).
Proof.
  intros H. destruct (@summarize_ok_start conn today days source s H)
    as [start E].
  rewrite (@summarize_components conn today days source start E) in H.
  injection H as <-.
  exists start. repeat split; assumption.
Qed.

(** X1: each entry of [by_month] is the sum of the amounts of the filtered rows
    whose date starts with that month key, each entry of [by_day] the sum for
    that exact date, and a key that is absent stands for an empty bucket. *)
Theorem summary_buckets conn today days source s :
  summarize_expenses conn today days source = Ok s ->
  exists start,
    start_date today days = Ok start
    /\ (forall k,
          (dict_get0 (by_month s) k
           == Qsum (map e_amount
                      (bucket month_of k (filtered conn start source))))%Q)
    /\ (forall k,
          (dict_get0 (by_day s) k
           == Qsum (map e_amount
                      (bucket e_date k (filtered conn start source))))%Q).
Proof.
  intros H. destruct (@summary_components conn today days source s H)
    as (start & E & _ & Hm & Hd & _).
  exists start. split; [exact E|]. split; intros k.
  - rewrite Hm, accumulate_get0. unfold dict_get0. simpl. ring.
  - rewrite Hd, accumulate_get0. unfold dict_get0. simpl. ring.
Qed.

Lemma summary_buckets_witness :
  exists s,
    summarize_expenses three_rows (dt.Date 2024 3 5) 0 (lit "all") = Ok s
    /\ exists start,
        start_date (dt.Date 2024 3 5) 0 = Ok start
        /\ (forall k,
              (dict_get0 (by_month s) k
               == Qsum (map e_amount
                          (bucket month_of k
                             (filtered three_rows start (lit "all")))))%Q)
        /\ (forall k,
              (dict_get0 (by_day s) k
               == Qsum (map e_amount
                          (bucket e_date k
                             (filtered three_rows start (lit "all")))))%Q).
Proof.
  eexists. split; [vm_compute; reflexivity|].
  apply (@summary_buckets three_rows (dt.Date 2024 3 5) 0 (lit "all")).
  vm_compute. reflexivity.
Defined.

(** X2: the keys of [by_month] are distinct and are exactly the seven-character
    prefixes of the dates of the filtered rows; the keys of [by_day] are
    distinct and are exactly those dates. *)
Theorem summary_keys conn today days source s :
  summarize_expenses conn today days source = Ok s ->
  exists start,
    start_date today days = Ok start
    /\ NoDup (map fst (by_month s)) /\ NoDup (map fst (by_day s))
    /\ (forall k, In k (map fst (by_month s))
                  <-> exists r, In r (filtered conn start source)
                                /\ month_of r = k)
    /\ (forall k, In k (map fst (by_day s))
                  <-> exists r, In r (filtered conn start source)
                                /\ e_date r = k).
Proof.
  intros H. destruct (@summary_components conn today days source s H)
    as (start & E & _ & Hm & Hd & _).
  exists start. rewrite Hm, Hd. split; [exact E|].
  split; [apply accumulate_NoDup; constructor|].
  split; [apply accumulate_NoDup; constructor|].
  split; intros k; rewrite accumulate_keys; simpl; tauto.
Qed.

Lemma summary_keys_witness :
  exists s,
    summarize_expenses three_rows (dt.Date 2024 3 5) 0 (lit "all") = Ok s
    /\ exists start,
        start_date (dt.Date 2024 3 5) 0 = Ok start
        /\ NoDup (map fst (by_month s)) /\ NoDup (map fst (by_day s))
        /\ (forall k, In k (map fst (by_month s))
                      <-> exists r, In r (filtered three_rows start (lit "all"))
                                    /\ month_of r = k)
        /\ (forall k, In k (map fst (by_day s))
                      <-> exists r, In r (filtered three_rows start (lit "all"))
                                    /\ e_date r = k).
Proof.
  eexists. split; [vm_compute; reflexivity|].
  apply (@summary_keys three_rows (dt.Date 2024 3 5) 0 (lit "all")).
  vm_compute. reflexivity.
Defined.




(** ** Windows of different lengths *)

Lemma str_leb_trans a b c :
  str_leb a b = true -> str_leb b c = true -> str_leb a c = true.
Proof.
  unfold str_leb.
  destruct (str_compare a b) eqn:Eab; try discriminate;
    destruct (str_compare b c) eqn:Ebc; try discriminate; intros _ _.
  - apply str_compare_eq in Eab, Ebc. subst. now rewrite str_compare_refl.
  - apply str_compare_eq in Eab. subst. now rewrite Ebc.
  - apply str_compare_eq in Ebc. subst. now rewrite Eab.
  - now rewrite (str_compare_lt_trans _ _ _ Eab Ebc).
Qed.

(** The three cases of the bound start date. *)
Lemma start_date_cases today days :
  dt.valid today ->
  ((days <= 0)%Z /\ start_date today days = Ok None)
  \/ ((0 < days <= dt.toordinal today)%Z
      /\ exists st, dt.valid st
           /\ dt.toordinal st = (dt.toordinal today - (days - 1))%Z
           /\ start_date today days = Ok (Some (dt.isoformat st)))
  \/ ((dt.toordinal today < days)%Z
      /\ start_date today days = Raise OverflowError).
Proof.
  intros Hv. pose proof (toordinal_bounds Hv) as Hb. unfold dt.MAXORDINAL in Hb.
  unfold start_date, dt.sub_days, dt.MAXORDINAL.
  destruct (Z.ltb_spec 0 days) as [Hd|Hd]; [|left; split; [lia|reflexivity]].
  right.
  destruct (Z_lt_le_dec (dt.toordinal today) days) as [K|K].
  - right. split; [exact K|].
    destruct (Z.ltb_spec 999999999 (Z.abs (days - 1))); [reflexivity|].
    destruct (Z.ltb_spec 0 (dt.toordinal today - (days - 1))); [lia|].
    reflexivity.
  - left. split; [lia|].
    destruct (@fromordinal_spec (dt.toordinal today - (days - 1))%Z)
      as [Hvs Hos]; [unfold dt.MAXORDINAL; lia|].
    exists (dt.fromordinal (dt.toordinal today - (days - 1))).
    split; [exact Hvs|]. split; [exact Hos|].
    destruct (Z.ltb_spec 999999999 (Z.abs (days - 1))); [lia|].
    destruct (Z.ltb_spec 0 (dt.toordinal today - (days - 1))); [|lia].
    destruct (Z.leb_spec (dt.toordinal today - (days - 1)) 3652059); [|lia].
    reflexivity.
Qed.

(** X4: a longer window never loses a record: with [0 < days1 <= days2], every
    record listed for [days1] is listed for [days2] (same day, same source
    filter), and every record listed for any window is listed when [days <= 0]
    asks for the whole history. *)
Theorem window_grows conn today days1 days2 source s1 s2 :
  dt.valid today ->
  summarize_expenses conn today days1 source = Ok s1 ->
  summarize_expenses conn today days2 source = Ok s2 ->
  (0 < days1 <= days2 \/ days2 <= 0)%Z ->
  forall v, In v (expenses_list s1) -> In v (expenses_list s2).
Proof.
  intros Hv H1 H2 Hd v.
  destruct (@summary_components conn today days1 source s1 H1)
    as (st1 & E1 & _ & _ & _ & ->).
  destruct (@summary_components conn today days2 source s2 H2)
    as (st2 & E2 & _ & _ & _ & ->).
  rewrite !rows_full_In. intros (r & Hr & -> & Hle & Hsrc).
  exists r. split; [exact Hr|]. split; [reflexivity|]. split; [|exact Hsrc].
  destruct (start_date_cases days2 Hv)
    as [[K2 S2]|[(K2 & d2 & V2 & T2 & S2)|[K2 S2]]];
    rewrite S2 in E2; [injection E2 as <-; exact I| |discriminate].
  injection E2 as <-.
  destruct (start_date_cases days1 Hv)
    as [[K1 S1]|[(K1 & d1 & V1 & T1 & S1)|[K1 S1]]];
    rewrite S1 in E1; [lia| |discriminate].
  injection E1 as <-.
  apply str_leb_trans with (b := dt.isoformat d1); [|exact Hle].
  apply str_leb_isoformat; [assumption..|]. lia.
Qed.

Lemma window_grows_witness :
  exists s1 s2,
    dt.valid (dt.Date 2024 3 5)
    /\ summarize_expenses three_rows (dt.Date 2024 3 5) 4 (lit "all") = Ok s1
    /\ summarize_expenses three_rows (dt.Date 2024 3 5) 5 (lit "all") = Ok s2
    /\ (0 < 4 <= 5 \/ 5 <= 0)%Z
    /\ forall v, In v (expenses_list s1) -> In v (expenses_list s2).
Proof.
  assert (H : dt.valid (dt.Date 2024 3 5)).
  { unfold dt.valid. vm_compute. intuition discriminate. }
  do 2 eexists. split; [exact H|].
  split; [vm_compute; reflexivity|]. split; [vm_compute; reflexivity|].
  split; [left; lia|].
  apply (@window_grows three_rows (dt.Date 2024 3 5) 4 5 (lit "all") _ _ H).
  - vm_compute. reflexivity.
  - vm_compute. reflexivity.
  - left. lia.
Defined.

(** ** Ledgers without negative amounts *)

Lemma bucket_nonneg (key : expense -> str) k rows :
  Forall (fun e => (0 <= e_amount e)%Q) rows ->
  (0 <= Qsum (map e_amount (bucket key k rows)))%Q.
Proof.
  intros H. apply Qsum_nonneg. apply Forall_forall. intros x Hx.
  apply in_map_iff in Hx as (r & <- & Hr). unfold bucket in Hr.
  apply filter_In in Hr as [Hr _]. rewrite Forall_forall in H. auto.
Qed.

Lemma filtered_nonneg conn start source :
  ledger_nonneg conn ->
  Forall (fun e => (0 <= e_amount e)%Q) (filtered conn start source).
Proof.
  unfold ledger_nonneg, filtered. rewrite !Forall_forall.
  intros H x Hx. apply filter_In in Hx as [Hx _]. auto.
Qed.

Lemma by_month_nonneg conn today days source s :
  ledger_nonneg conn ->
  summarize_expenses conn today days source = Ok s ->
  forall k, (0 <= dict_get0 (by_month s) k)%Q.
Proof.
  intros Hn H k.
  destruct (@summary_components conn today days source s H)
    as (start & _ & _ & -> & _).
  rewrite accumulate_get0. unfold dict_get0 at 1. cbn [dict_get].
  rewrite Qplus_0_l. apply bucket_nonneg. now apply filtered_nonneg.
Qed.

(** X5: on a ledger without negative amounts every figure of a summary is at
    least zero: the total, each month total and each day total. *)
Theorem summary_nonneg conn today days source s :
  ledger_nonneg conn ->
  summarize_expenses conn today days source = Ok s ->
  (0 <= total s)%Q
  /\ (forall k, (0 <= dict_get0 (by_month s) k)%Q)
  /\ (forall k, (0 <= dict_get0 (by_day s) k)%Q).
Proof.
  intros Hn H. split; [|split].
  - destruct (@summary_components conn today days source s H)
      as (start & _ & -> & _).
    pose proof (@filtered_nonneg conn start source Hn) as Hf.
    fold (Qsum (map e_amount (filtered conn start source))).
    apply Qsum_nonneg. apply Forall_forall. intros x Hx.
    apply in_map_iff in Hx as (r & <- & Hr). rewrite Forall_forall in Hf. auto.
  - exact (@by_month_nonneg conn today days source s Hn H).
  - intros k.
    destruct (@summary_components conn today days source s H)
      as (start & _ & _ & _ & -> & _).
    rewrite accumulate_get0. unfold dict_get0 at 1. cbn [dict_get].
    rewrite Qplus_0_l. apply bucket_nonneg. now apply filtered_nonneg.
Qed.

Lemma three_rows_nonneg : ledger_nonneg three_rows.
Proof. repeat constructor; simpl; unfold Qle; simpl; lia. Qed.

Lemma summary_nonneg_witness :
  exists s,
    ledger_nonneg three_rows
    /\ summarize_expenses three_rows (dt.Date 2024 3 5) 0 (lit "all") = Ok s
    /\ (0 <= total s)%Q
    /\ (forall k, (0 <= dict_get0 (by_month s) k)%Q)
    /\ (forall k, (0 <= dict_get0 (by_day s) k)%Q).
Proof.
  eexists. split; [exact three_rows_nonneg|].
  split; [vm_compute; reflexivity|].
  apply (@summary_nonneg three_rows (dt.Date 2024 3 5) 0 (lit "all") _
           three_rows_nonneg).
  vm_compute. reflexivity.
Defined.




(** ** What a sync run leaves behind *)

Lemma parse_amount_nonneg text v : parse_amount text = Some v -> (0 <= v)%Q.
Proof.
  rewrite parse_amount_values. pose proof (parsed_values_nonneg text) as H.
  destruct (parsed_values text) as [|x xs]; [discriminate|].
  intros [= <-]. destruct (py_max_spec xs x) as (_ & _ & Hin).
  rewrite Forall_forall in H. now apply H.
Qed.

Section SyncRun.
Variable b64decode_utf8 : str -> result str.
Variable parsedate_to_date : str -> option dt.date.
Variable json_dumps : str -> str -> str.
Variable today : dt.date.

Lemma sync_message_shape m conn added conn' added' :
  sync_message b64decode_utf8 parsedate_to_date json_dumps today m (conn, added)
  = Ok (conn', added') ->
  exists new,
    conn' = {| expenses := expenses conn ++ new;
               seq := seq conn + Z.of_nat (length new) |}
    /\ added' = (added + Z.of_nat (length new))%Z
    /\ Forall synced new /\ (length new <= 1)%nat.
Proof.
  unfold sync_message.
  destruct (message_body b64decode_utf8 m) as [body|]; [|discriminate].
  cbn [bind]. destruct (parse_amount _) as [amount|] eqn:Hp.
  - match goal with
    | |- context [firstn 1000 ?l] =>
        pose proof (firstn_le_length 1000 l) as Hraw;
        set (raw := firstn 1000 l) in *; clearbody raw
    end.
    intros [= <- <-]. unfold store_expense. eexists [_]. cbn [length].
    split; [reflexivity|]. split; [reflexivity|]. split; [|lia].
    constructor; [|constructor]. unfold synced.
    cbn [e_source e_amount e_raw e_merchant e_description].
    split; [reflexivity|]. split; [now apply parse_amount_nonneg in Hp|].
    split; [|split; discriminate].
    exists raw. split; [reflexivity|exact Hraw].
  - intros [= <- <-]. exists []. cbn [length]. rewrite app_nil_r, !Z.add_0_r.
    destruct conn. repeat split; try apply Forall_nil; cbn [length]; lia.
Qed.

Lemma sync_messages_shape msgs : forall conn added conn' added',
  sync_messages b64decode_utf8 parsedate_to_date json_dumps today msgs
    (conn, added) = Ok (conn', added') ->
  exists new,
    conn' = {| expenses := expenses conn ++ new;
               seq := seq conn + Z.of_nat (length new) |}
    /\ added' = (added + Z.of_nat (length new))%Z
    /\ Forall synced new /\ (length new <= length msgs)%nat.
Proof.
  induction msgs as [|m msgs IH]; intros conn added conn' added' H.
  - injection H as <- <-. exists []. cbn [length].
    rewrite app_nil_r, !Z.add_0_r. destruct conn. repeat split; try apply Forall_nil; cbn [length]; lia.
  - cbn [sync_messages] in H.
    destruct (sync_message _ _ _ _ m (conn, added)) as [[c1 a1]|] eqn:E1;
      [|discriminate].
    cbn [bind] in H.
    apply sync_message_shape in E1 as (new1 & -> & -> & F1 & L1).
    apply IH in H as (new2 & -> & -> & F2 & L2).
    exists (new1 ++ new2). cbn [expenses seq length].
    rewrite <- app_assoc, length_app, Nat2Z.inj_add, !Z.add_assoc.
    split; [reflexivity|]. split; [reflexivity|].
    split; [now apply Forall_app|lia].
Qed.

Lemma sync_pages_shape l : forall conn added conn' added',
  sync_pages b64decode_utf8 parsedate_to_date json_dumps today l (conn, added)
  = Ok (conn', added') ->
  exists new,
    conn' = {| expenses := expenses conn ++ new;
               seq := seq conn + Z.of_nat (length new) |}
    /\ added' = (added + Z.of_nat (length new))%Z
    /\ Forall synced new /\ (length new <= length (batch l))%nat.
Proof.
  induction l as [msgs|msgs l IH]; intros conn added conn' added' H.
  - destruct msgs as [|m msgs]; [|now apply sync_messages_shape].
    injection H as <- <-. exists []. cbn [length].
    rewrite app_nil_r, !Z.add_0_r. destruct conn. repeat split; try apply Forall_nil; cbn [length]; lia.
  - destruct msgs as [|m msgs].
    { injection H as <- <-. exists []. cbn [length].
      rewrite app_nil_r, !Z.add_0_r. destruct conn. repeat split; try apply Forall_nil; cbn [length]; lia. }
    cbn [sync_pages] in H.
    destruct (sync_messages _ _ _ _ (m :: msgs) (conn, added)) as [[c1 a1]|]
      eqn:E1; [|discriminate].
    cbn [bind] in H.
    apply sync_messages_shape in E1 as (new1 & -> & -> & F1 & L1).
    apply IH in H as (new2 & -> & -> & F2 & L2).
    exists (new1 ++ new2). cbn [expenses seq batch].
    rewrite <- app_assoc, !length_app, Nat2Z.inj_add, !Z.add_assoc.
    split; [reflexivity|]. split; [reflexivity|].
    split; [now apply Forall_app|lia].
Qed.
End SyncRun.

Section SyncInvariant.
Variable b64decode_utf8 : str -> result str.
Variable parsedate_to_date : str -> option dt.date.
Variable json_dumps : str -> str -> str.
Variable today : dt.date.
Variable P : db -> Prop.
Hypothesis P_store : forall conn source date merchant description amount raw,
  P conn -> (0 <= amount)%Q ->
  P (store_expense conn source date merchant description amount raw).

Lemma sync_messages_invariant msgs : forall conn added conn' added',
  sync_messages b64decode_utf8 parsedate_to_date json_dumps today msgs
    (conn, added) = Ok (conn', added') ->
  P conn -> P conn'.
Proof.
  induction msgs as [|m msgs IH]; intros conn added conn' added' H HP.
  - now injection H as <- <-.
  - cbn [sync_messages] in H. unfold sync_message in H.
    destruct (message_body b64decode_utf8 m) as [body|]; [|discriminate].
    cbn [bind] in H. destruct (parse_amount _) as [amount|] eqn:Hp;
      cbn [bind] in H.
    + eapply IH; [exact H|]. apply P_store; [exact HP|].
      now apply parse_amount_nonneg in Hp.
    + eapply IH; eassumption.
Qed.

Lemma sync_pages_invariant l : forall conn added conn' added',
  sync_pages b64decode_utf8 parsedate_to_date json_dumps today l (conn, added)
  = Ok (conn', added') ->
  P conn -> P conn'.
Proof.
  induction l as [msgs|msgs l IH]; intros conn added conn' added' H HP.
  - destruct msgs as [|m msgs].
    + now injection H as <- <-.
    + eapply sync_messages_invariant; eassumption.
  - destruct msgs as [|m msgs].
    + now injection H as <- <-.
    + cbn [sync_pages] in H.
      destruct (sync_messages _ _ _ _ (m :: msgs) (conn, added)) as [[c1 a1]|]
        eqn:E1; [|discriminate].
      cbn [bind] in H. eapply IH; [exact H|].
      eapply sync_messages_invariant; eassumption.
Qed.
End SyncInvariant.

Lemma ledger_nonneg_store conn source date merchant description amount raw :
  ledger_nonneg conn -> (0 <= amount)%Q ->
  ledger_nonneg (store_expense conn source date merchant description amount raw).
Proof.
  unfold ledger_nonneg, store_expense. cbn [expenses]. intros H Ha.
  apply Forall_app. split; [exact H|]. repeat constructor. exact Ha.
Qed.

(** X7: every sync run that returns has only appended: the rows that were there
    are unchanged and in place, the rows added are "gmail" rows with an amount
    of at least zero, a raw snapshot of at most 1000 characters and no NULL
    merchant or description, their number is the value returned and is at most
    the number of messages worked through; identifiers stay distinct and a
    ledger without negative amounts stays so. *)
Theorem sync_run_appends
    (b64decode_utf8 : str -> result str)
    (parsedate_to_date : str -> option dt.date)
    (json_dumps : str -> str -> str)
    (today : dt.date) (l : listing) (conn conn' : db) (added : Z) :
  sync_gmail_expenses b64decode_utf8 parsedate_to_date json_dumps today l conn
  = Ok (conn', added) ->
  (exists new,
      expenses conn' = expenses conn ++ new
      /\ added = Z.of_nat (length new)
      /\ seq conn' = (seq conn + added)%Z
      /\ Forall synced new
      /\ (length new <= length (batch l))%nat)
  /\ (db_ok conn -> db_ok conn')
  /\ (ledger_nonneg conn -> ledger_nonneg conn').
Proof.
  unfold sync_gmail_expenses. intros H. split; [|split].
  - apply sync_pages_shape in H as (new & -> & -> & F & L).
    exists new. cbn [expenses seq]. rewrite Z.add_0_l. auto.
  - intros Hok. eapply sync_pages_invariant with (P := db_ok); [|exact H|exact Hok].
    intros. now apply db_ok_store.
  - intros Hn. eapply sync_pages_invariant with (P := ledger_nonneg);
      [|exact H|exact Hn].
    intros. now apply ledger_nonneg_store.
Qed.

Lemma sync_run_appends_witness :
  exists conn' added,
    sync_gmail_expenses (fun data => Ok data) (fun _ => None)
      (fun subject _ => subject) (dt.Date 2024 3 1) three_messages three_rows
    = Ok (conn', added)
    /\ (exists new,
          expenses conn' = expenses three_rows ++ new
          /\ added = Z.of_nat (length new)
          /\ seq conn' = (seq three_rows + added)%Z
          /\ Forall synced new
          /\ (length new <= length (batch three_messages))%nat)
    /\ (db_ok three_rows -> db_ok conn')
    /\ (ledger_nonneg three_rows -> ledger_nonneg conn').
Proof.
  do 2 eexists. split; [vm_compute; reflexivity|].
  apply (@sync_run_appends (fun data => Ok data) (fun _ => None)
           (fun subject _ => subject) (dt.Date 2024 3 1) three_messages
           three_rows).
  vm_compute. reflexivity.
Defined.




(** ** A stored row and the next summary *)

Lemma filtered_store conn start source src date merchant description amount raw :
  filtered (store_expense conn src date merchant description amount raw)
    start source
  = filtered conn start source
    ++ filter (where_clause start source)
         [{| e_id := seq conn + 1; e_source := src; e_date := date;
             e_merchant := Some merchant; e_description := Some description;
             e_amount := amount; e_raw := Some raw |}].
Proof. unfold filtered, store_expense. cbn [expenses]. apply filter_app. Qed.

(** X9: a row stored by [store_expense] is seen by the next summary exactly
    when it passes that summary's filter: the list then holds the records it
    held before and the new one, under the next identifier, and the total and
    the row's month total grow by its amount; when the row does not pass the
    filter the list and the total are as before. *)
Theorem store_then_summarize conn today days source start
    src date merchant description amount raw :
  start_date today days = Ok start ->
  exists s s' e,
    e = {| e_id := seq conn + 1; e_source := src; e_date := date;
           e_merchant := Some merchant; e_description := Some description;
           e_amount := amount; e_raw := Some raw |}
    /\ summarize_expenses conn today days source = Ok s
    /\ summarize_expenses
         (store_expense conn src date merchant description amount raw)
         today days source = Ok s'
    /\ (forall v, In v (expenses_list s')
                  <-> In v (expenses_list s)
                      \/ (v = view e /\ where_clause start source e = true))
    /\ total s' = (if where_clause start source e
                   then (total s + amount)%Q else total s)
    /\ (dict_get0 (by_month s') (firstn 7 date)
        == dict_get0 (by_month s) (firstn 7 date)
           + (if where_clause start source e then amount else 0))%Q.
Proof.
  intros E.
  rewrite !(@summarize_components _ today days source start E).
  do 3 eexists. split; [reflexivity|]. split; [reflexivity|].
  split; [reflexivity|]. cbn [expenses_list total by_month].
  set (e := {| e_id := seq conn + 1; e_source := src; e_date := date;
               e_merchant := Some merchant; e_description := Some description;
               e_amount := amount; e_raw := Some raw |}).
  pose proof (@filtered_store conn start source src date merchant description
                amount raw) as F. fold e in F.
  split; [|split].
  - intros v. rewrite !rows_full_In. unfold store_expense. cbn [expenses].
    fold e. split.
    + intros (r & Hr & -> & Hw). apply in_app_iff in Hr as [Hr|[<-|[]]].
      * left. eauto.
      * right. split; [reflexivity|]. now apply where_clause_spec.
    + intros [(r & Hr & -> & Hw)|[-> Hw]].
      * exists r. rewrite in_app_iff. auto.
      * exists e. rewrite in_app_iff. apply where_clause_spec in Hw.
        split; [right; now left|]. auto.
  - rewrite F, map_app, fold_left_app. cbn [filter].
    destruct (where_clause start source e); reflexivity.
  - rewrite F. rewrite !accumulate_get0. unfold bucket.
    rewrite filter_app, map_app, Qsum_app. cbn [filter].
    destruct (where_clause start source e); cbn [filter].
    + change (month_of e) with (firstn 7 date). rewrite str_eqb_refl.
      cbn [map]. change (e_amount e) with amount.
      rewrite Qsum_cons. change (Qsum []) with 0%Q. ring.
    + cbn [map]. change (Qsum []) with 0%Q. ring.
Qed.

Lemma store_then_summarize_witness :
  start_date (dt.Date 2024 3 5) 0 = Ok None
  /\ exists s s' e,
      e = {| e_id := seq three_rows + 1; e_source := lit "manual";
             e_date := lit "2024-03-04"; e_merchant := Some [];
             e_description := Some []; e_amount := (3 # 1)%Q;
             e_raw := Some [] |}
      /\ summarize_expenses three_rows (dt.Date 2024 3 5) 0 (lit "all") = Ok s
      /\ summarize_expenses
           (store_expense three_rows (lit "manual") (lit "2024-03-04") [] []
              (3 # 1)%Q [])
           (dt.Date 2024 3 5) 0 (lit "all") = Ok s'
      /\ (forall v, In v (expenses_list s')
                    <-> In v (expenses_list s)
                        \/ (v = view e
                            /\ where_clause None (lit "all") e = true))
      /\ total s' = (if where_clause None (lit "all") e
                     then (total s + (3 # 1))%Q else total s)
      /\ (dict_get0 (by_month s') (firstn 7 (lit "2024-03-04"))
          == dict_get0 (by_month s) (firstn 7 (lit "2024-03-04"))
             + (if where_clause None (lit "all") e then (3 # 1) else 0))%Q.
Proof.
  split; [reflexivity|].
  apply (@store_then_summarize three_rows (dt.Date 2024 3 5) 0 (lit "all") None
           (lit "manual") (lit "2024-03-04") [] [] (3 # 1)%Q []).
  reflexivity.
Defined.

Lemma build_insights_days_in_month_witness :
  ((dt.MINYEAR <= 2024 <= dt.MAXYEAR)%Z /\ (1 <= 2 <= 12)%Z)
  /\ days_so_far (dt.Date 2026 11 4) 2024 2 = Ok (dt.days_in_month 2024 2)
  /\ exists last_spend more,
      build_insights (dt.Date 2026 11 4) two_months
      = Ok (Spending (month_key 2024 2) last_spend
              (last_spend / inject_Z (dt.days_in_month 2024 2)) :: more).
Proof.
  split; [unfold dt.MINYEAR, dt.MAXYEAR; lia|].
  apply (@build_insights_days_in_month (dt.Date 2026 11 4) two_months 2024 2).
  - unfold dt.MINYEAR, dt.MAXYEAR. lia.
  - lia.
  - cbn. lia.
  - lia.
  - discriminate.
  - vm_compute. reflexivity.
Defined.

(** *** The shape of the report *)

Lemma sorted_last_greatest l :
  forall k, In k l -> str_leb k (last (sorted l) []) = true.
Proof.
  intros k Hk. apply sorted_In in Hk. unfold sorted in *.
  assert (Hs : StronglySorted (fun a b => str_leb a b = true)
                 (sort_by str_leb l)).
  { apply sort_by_sorted.
    - intros x y. unfold str_leb. rewrite (str_compare_antisym x y).
      destruct (str_compare x y); simpl; auto.
    - intros x y z. apply str_leb_trans. }
  induction Hs as [|x l' Hs IH Hx]; [contradiction|].
  destruct l' as [|y l'].
  - destruct Hk as [<-|[]]. apply str_leb_refl.
  - change (last (x :: y :: l') []) with (last (y :: l') []).
    destruct Hk as [<-|Hk]; [|now apply IH].
    rewrite Forall_forall in Hx. apply Hx. apply last_In. discriminate.
Qed.

(** X11: a report that is returned has at most two sentences; it is empty
    exactly when [by_month] is empty; otherwise it opens with the sentence on
    the greatest month key, carrying that month's total, and the only thing
    that can follow is one percent-change sentence about that month and the
    key before it in sorted order. *)
Theorem build_insights_shape today s ins :
  build_insights today s = Ok ins ->
  let months := sorted (map fst (by_month s)) in
  (length ins <= 2)%nat
  /\ (ins = [] <-> by_month s = [])
  /\ (by_month s <> [] ->
      In (last months []) (map fst (by_month s))
      /\ (forall k, In k (map fst (by_month s)) ->
                    str_leb k (last months []) = true)
      /\ exists avg more,
          ins = Spending (last months [])
                  (dict_get0 (by_month s) (last months [])) avg :: more
          /\ (more = []
              \/ exists p d,
                  more = [Change (last months []) p d (second_last months)])).
Proof.
  intros H. cbv zeta. destruct (by_month s) as [|kv bm] eqn:Ebm.
  - unfold build_insights in H. rewrite Ebm in H. injection H as <-.
    split; [simpl; lia|]. split; [tauto|]. congruence.
  - assert (Hne : by_month s <> []) by (rewrite Ebm; discriminate).
    rewrite <- Ebm.
    destruct (build_insights_ok _ _ H Hne) as (ls & avg & more & -> & E1 & E2).
    apply change_insight_spec in E2. cbv zeta in E2.
    assert (Hm : more = []
                 \/ exists p d,
                     more = [Change (last (sorted (map fst (by_month s))) []) p d
                               (second_last (sorted (map fst (by_month s))))]).
    { destruct E2 as [(-> & _)|(-> & _)]; eauto. }
    split; [|split].
    + destruct Hm as [->|(p & d & ->)]; simpl; lia.
    + split; intros K; [discriminate K|contradiction].
    + intros _. split; [|split].
      * apply sorted_In, last_In. intros K.
        apply (f_equal (@length _)) in K.
        rewrite sorted_length, length_map, Ebm in K. discriminate K.
      * apply sorted_last_greatest.
      * exists avg, more. rewrite E1. split; [reflexivity|exact Hm].
Qed.

Lemma build_insights_shape_witness :
  exists ins,
    build_insights (dt.Date 2026 11 4) two_months = Ok ins
    /\ (length ins <= 2)%nat
    /\ (ins = [] <-> by_month two_months = [])
    /\ (by_month two_months <> [] ->
        In (last (sorted (map fst (by_month two_months))) [])
           (map fst (by_month two_months))
        /\ (forall k, In k (map fst (by_month two_months)) ->
              str_leb k (last (sorted (map fst (by_month two_months))) [])
              = true)
        /\ exists avg more,
            ins = Spending (last (sorted (map fst (by_month two_months))) [])
                    (dict_get0 (by_month two_months)
                       (last (sorted (map fst (by_month two_months))) []))
                    avg :: more
            /\ (more = []
                \/ exists p d,
                    more = [Change
                              (last (sorted (map fst (by_month two_months))) [])
                              p d
                              (second_last
                                 (sorted (map fst (by_month two_months))))])).
Proof.
  eexists. split; [vm_compute; reflexivity|].
  apply (@build_insights_shape (dt.Date 2026 11 4) two_months).
  vm_compute. reflexivity.
Defined.



(** *** Month keys that are not months *)

Lemma split_length sep s :
  length (split sep s) = S (count_occ N.eq_dec s sep).
Proof.
  induction s as [|c s IH]; [reflexivity|]. cbn [split count_occ].
  destruct (N.eqb_spec c sep) as [->|Hne].
  - destruct (N.eq_dec sep sep); [|congruence]. cbn [length]. now rewrite IH.
  - destruct (N.eq_dec c sep); [congruence|].
    destruct (split sep s) as [|w ws]; [discriminate IH|exact IH].
Qed.

Lemma year_month_dashes k ym :
  year_month k = Ok ym -> count_occ N.eq_dec k dash = 1%nat.
Proof.
  unfold year_month. intros H.
  assert (L : length (map int (split dash k)) = 2%nat).
  { destruct (map int (split dash k)) as [|[y|] [|[m|] [|? ?]]];
      try discriminate H. reflexivity. }
  rewrite length_map, split_length in L. lia.
Qed.

(** X13: when the greatest month key does not contain exactly one "-" (a date
    such as "2024/01/05" or "1-2-3-4" was stored), [build_insights] raises
    [ValueError] and produces no report at all. *)
Theorem build_insights_bad_key today s :
  by_month s <> [] ->
  count_occ N.eq_dec (last (sorted (map fst (by_month s))) []) dash <> 1%nat ->
  build_insights today s = Raise ValueError.
Proof.
  intros Hne Hk. unfold build_insights. cbv zeta.
  destruct (by_month s) as [|kv bm] eqn:Ebm; [congruence|].
  assert (Hin : In (last (sorted (map fst (kv :: bm))) []) (map fst (kv :: bm))).
  { apply sorted_In, last_In. intros K. apply (f_equal (@length _)) in K.
    rewrite sorted_length in K. discriminate K. }
  destruct (dict_get_In _ _ Hin) as [v Hv].
  unfold dict_item at 1. rewrite Hv. cbn [bind].
  destruct (year_month _) as [ym|e] eqn:E.
  - apply year_month_dashes in E. contradiction.
  - unfold year_month in E.
    destruct (map int _) as [|[y|] [|[m|] [|? ?]]]; try discriminate E;
      injection E as <-; reflexivity.
Qed.

Lemma build_insights_bad_key_witness :
  by_month (summary_of [(lit "2024/01", (5 # 1)%Q)]) <> []
  /\ build_insights (dt.Date 2026 11 4) (summary_of [(lit "2024/01", (5 # 1)%Q)])
     = Raise ValueError.
Proof.
  split; [discriminate|].
  apply (@build_insights_bad_key (dt.Date 2026 11 4)
           (summary_of [(lit "2024/01", (5 # 1)%Q)])).
  - discriminate.
  - vm_compute. discriminate.
Defined.

(** X14: when the greatest month key is the month of today, the daily average
    divides the month's total by today's day of the month. *)
Theorem build_insights_current_month today s :
  dt.valid today ->
  by_month s <> [] ->
  last (sorted (map fst (by_month s))) []
  = month_key (dt.year today) (dt.month today) ->
  exists last_spend more,
    dict_get (by_month s) (month_key (dt.year today) (dt.month today))
    = Some last_spend
    /\ build_insights today s
       = Ok (Spending (month_key (dt.year today) (dt.month today)) last_spend
               (last_spend / inject_Z (dt.day today)) :: more).
Proof.
  intros Hv Hne Hlast. unfold build_insights. cbv zeta.
  destruct (by_month s) as [|kv bm] eqn:Ebm; [congruence|].
  rewrite Hlast.
  assert (Hin : In (month_key (dt.year today) (dt.month today))
                   (map fst (kv :: bm))).
  { rewrite <- Hlast. apply sorted_In, last_In. intros K.
    apply (f_equal (@length _)) in K. rewrite sorted_length in K.
    discriminate K. }
  destruct (dict_get_In _ _ Hin) as [v Hv'].
  unfold dict_item at 1. rewrite Hv'. cbn [bind].
  destruct (valid_fields Hv) as (Hy & Hm & Hd).
  change (10 ^ Z.of_nat 4)%Z with 10000%Z in Hy.
  change (10 ^ Z.of_nat 2)%Z with 100%Z in Hm.
  rewrite year_month_key by lia. cbn [bind fst snd].
  unfold days_so_far. rewrite !Z.eqb_refl. cbn [andb bind].
  destruct Hv as (_ & _ & Hday).
  destruct (Z.eqb_spec (dt.day today) 0) as [K|_]; [lia|].
  destruct (@change_insight_total (kv :: bm) (sorted (map fst (kv :: bm)))
              (month_key (dt.year today) (dt.month today)) v) as [more Hmore].
  { intros k. apply sorted_In. }
  rewrite Hmore. cbn [bind]. eauto.
Qed.

Lemma build_insights_current_month_witness :
  dt.valid (dt.Date 2024 2 10)
  /\ exists last_spend more,
      dict_get (by_month two_months)
        (month_key (dt.year (dt.Date 2024 2 10)) (dt.month (dt.Date 2024 2 10)))
      = Some last_spend
      /\ build_insights (dt.Date 2024 2 10) two_months
         = Ok (Spending
                 (month_key (dt.year (dt.Date 2024 2 10))
                    (dt.month (dt.Date 2024 2 10)))
                 last_spend
                 (last_spend / inject_Z (dt.day (dt.Date 2024 2 10))) :: more).
Proof.
  assert (H : dt.valid (dt.Date 2024 2 10)).
  { unfold dt.valid. vm_compute. intuition discriminate. }
  split; [exact H|].
  apply (@build_insights_current_month (dt.Date 2024 2 10) two_months H).
  - discriminate.
  - vm_compute. reflexivity.
Defined.

(** ** More on the extractor *)

(** X15: the [except ValueError] branch of [parse_amount] is never entered:
    every group that [AMOUNT_REGEX] captures is read by [float] once its commas
    are removed, so there are as many parsed values as matches. *)
Theorem every_match_parses text :
  Forall (fun g => exists q, float (remove_commas g) = Some q) (finditer text)
  /\ length (parsed_values text) = length (finditer text).
Proof.
  split; [|apply parsed_values_length].
  apply Forall_forall. intros g Hg.
  destruct (finditer_float _ _ Hg) as (q & Hq & _). eauto.
Qed.




(** ** An empty window *)

(** X17: when no row passes the filter (an empty ledger, or a window or source
    without records) the summary is empty in every part, the total is 0, and
    the report built from it is empty: nothing is raised. *)
Theorem summarize_empty conn today days source start now :
  start_date today days = Ok start ->
  filtered conn start source = [] ->
  summarize_expenses conn today days source
  = Ok {| total := 0%Q; by_month := []; by_day := []; expenses_list := [] |}
  /\ (s <- summarize_expenses conn today days source ;; build_insights now s)
     = Ok [].
Proof.
  intros E F.
  assert (H : summarize_expenses conn today days source
              = Ok {| total := 0%Q; by_month := []; by_day := [];
                      expenses_list := [] |}).
  { rewrite (@summarize_components conn today days source start E).
    unfold rows_full. fold (filtered conn start source). now rewrite F. }
  split; [exact H|]. rewrite H. reflexivity.
Qed.

Lemma summarize_empty_witness :
  start_date (dt.Date 2024 3 5) 3 = Ok (Some (lit "2024-03-03"))
  /\ filtered three_rows (Some (lit "2024-03-03")) (lit "manual") = []
  /\ summarize_expenses three_rows (dt.Date 2024 3 5) 3 (lit "manual")
     = Ok {| total := 0%Q; by_month := []; by_day := []; expenses_list := [] |}
  /\ (s <- summarize_expenses three_rows (dt.Date 2024 3 5) 3 (lit "manual") ;;
      build_insights (dt.Date 2024 3 5) s)
     = Ok [].
Proof.
  assert (E : start_date (dt.Date 2024 3 5) 3 = Ok (Some (lit "2024-03-03")))
    by (vm_compute; reflexivity).
  assert (F : filtered three_rows (Some (lit "2024-03-03")) (lit "manual") = [])
    by (vm_compute; reflexivity).
  split; [exact E|]. split; [exact F|].
  exact (@summarize_empty three_rows (dt.Date 2024 3 5) 3 (lit "manual")
           (Some (lit "2024-03-03")) (dt.Date 2024 3 5) E F).
Defined.

(** ** Settings *)

Lemma find_key_filtered (conn : settings) key :
  find (fun row => str_eqb (fst row) key)
       (filter (fun row => negb (str_eqb (fst row) key)) conn) = None.
Proof.
  induction conn as [|[k v] conn IH]; [reflexivity|]. cbn [filter fst].
  destruct (str_eqb k key) eqn:E; cbn [negb]; [exact IH|].
  cbn [find fst]. now rewrite E.
Qed.

Lemma find_other_filtered (conn : settings) key key' :
  key' <> key ->
  find (fun row => str_eqb (fst row) key')
       (filter (fun row => negb (str_eqb (fst row) key)) conn)
  = find (fun row => str_eqb (fst row) key') conn.
Proof.
  intros Hne. induction conn as [|[k v] conn IH]; [reflexivity|].
  cbn [filter find fst].
  destruct (str_eqb k key) eqn:E; cbn [negb find fst].
  - apply str_eqb_eq in E. subst k.
    destruct (str_eqb key key') eqn:E'; [|exact IH].
    apply str_eqb_eq in E'. congruence.
  - now rewrite IH.
Qed.

Lemma find_app_none {A} (f : A -> bool) l1 l2 :
  find f l1 = None -> find f (l1 ++ l2) = find f l2.
Proof.
  induction l1 as [|x l1 IH]; [reflexivity|]. cbn [find app].
  destruct (f x); [discriminate|exact IH].
Qed.

Lemma find_app_some {A} (f : A -> bool) l1 l2 x :
  find f l1 = Some x -> find f (l1 ++ l2) = Some x.
Proof.
  induction l1 as [|y l1 IH]; [discriminate|]. cbn [find app].
  destruct (f y); [auto|exact IH].
Qed.

Lemma get_set_same conn key value default :
  get_setting (set_setting conn key value) key default = Some value.
Proof.
  unfold get_setting, set_setting.
  rewrite find_app_none by apply find_key_filtered.
  cbn [find fst]. now rewrite str_eqb_refl.
Qed.

Lemma get_set_other conn key value key' default :
  key' <> key ->
  get_setting (set_setting conn key value) key' default
  = get_setting conn key' default.
Proof.
  intros Hne. unfold get_setting, set_setting.
  destruct (find (fun row => str_eqb (fst row) key') conn) as [row|] eqn:E.
  - erewrite find_app_some; [reflexivity|].
    now rewrite find_other_filtered.
  - rewrite find_app_none by now rewrite find_other_filtered.
    cbn [find fst]. destruct (str_eqb key key') eqn:E'; [|reflexivity].
    apply str_eqb_eq in E'. congruence.
Qed.

Lemma set_setting_keys conn key value :
  NoDup (map fst conn) -> NoDup (map fst (set_setting conn key value)).
Proof.
  intros H. unfold set_setting. rewrite map_app. cbn [map fst].
  apply NoDup_app.
  - induction conn as [|[k v] conn IH]; [constructor|].
    inversion H as [|? ? Hk Hc]; subst. cbn [filter fst].
    destruct (str_eqb k key); cbn [negb map fst]; [auto|].
    constructor; [|auto]. intros Hin. apply Hk.
    apply in_map_iff in Hin as (r & <- & Hr). apply filter_In in Hr as [Hr _].
    now apply in_map.
  - repeat constructor. auto.
  - intros k Hk [<-|[]]. apply in_map_iff in Hk as (r & E & Hr).
    apply filter_In in Hr as [_ Hr]. rewrite E, str_eqb_refl in Hr.
    discriminate.
Qed.

(** X18: a setting that was written is read back: after [set_setting] the key
    holds the new value whatever it held before, every other key reads as it
    did, and the keys stay distinct. *)
Theorem setting_round_trip conn key value :
  (forall default,
      get_setting (set_setting conn key value) key default = Some value)
  /\ (forall key' default,
        key' <> key ->
        get_setting (set_setting conn key value) key' default
        = get_setting conn key' default)
  /\ (NoDup (map fst conn) -> NoDup (map fst (set_setting conn key value))).
Proof.
  split; [|split].
  - intros. apply get_set_same.
  - intros. now apply get_set_other.
  - apply set_setting_keys.
Qed.

Section GmailConfigProperties.
Variable json : Type.
Variable json_loads : str -> option json.
Variable json_dumps_value : json -> str.

End GmailConfigProperties.

(** ** Todos *)

Lemma str_leb_total a b : str_leb a b = true \/ str_leb b a = true.
Proof.
  unfold str_leb. rewrite (str_compare_antisym a b).
  destruct (str_compare a b); cbn; auto.
Qed.

Lemma todo_before_total t1 t2 :
  todo_before t1 t2 = true \/ todo_before t2 t1 = true.
Proof.
  unfold todo_before. rewrite (Z.compare_antisym (t_done t1) (t_done t2)).
  destruct (t_done t1 ?= t_done t2)%Z; cbn; auto.
  destruct (str_leb_total (t_created_at t1) (t_created_at t2)); auto.
Qed.

Lemma todo_before_trans t1 t2 t3 :
  todo_before t1 t2 = true -> todo_before t2 t3 = true ->
  todo_before t1 t3 = true.
Proof.
  unfold todo_before.
  destruct (Z.compare_spec (t_done t1) (t_done t2)) as [E12|E12|E12];
    try discriminate;
    destruct (Z.compare_spec (t_done t2) (t_done t3)) as [E23|E23|E23];
    try discriminate; intros H1 H2.
  - rewrite E12, E23, Z.compare_refl. eapply str_leb_trans; eauto.
  - now rewrite (proj2 (Z.compare_lt_iff _ _)) by lia.
  - now rewrite (proj2 (Z.compare_lt_iff _ _)) by lia.
  - now rewrite (proj2 (Z.compare_lt_iff _ _)) by lia.
Qed.

Lemma todo_before_ordered t1 t2 :
  todo_before t1 t2 = true <-> todo_ordered t1 t2.
Proof.
  unfold todo_before, todo_ordered.
  destruct (Z.compare_spec (t_done t1) (t_done t2)) as [E|E|E]; split;
    intros H; try tauto; try lia; try discriminate.
  destruct H as [H|[_ H]]; [lia|exact H].
Qed.



Lemma todo_ok_empty : todo_ok {| todos := []; todo_seq := 0 |}.
Proof. split; constructor. Qed.

Lemma todo_ok_add now text conn :
  todo_ok conn -> todo_ok (snd (api_add_todo now text conn)).
Proof.
  intros [Hnd Hall]. unfold api_add_todo.
  destruct (strip (or_empty text)) as [|c txt]; [now split|].
  cbn [snd]. split; cbn [todos todo_seq].
  - rewrite map_app. cbn [map t_id]. apply NoDup_app.
    + exact Hnd.
    + repeat constructor. auto.
    + intros i Hi [<-|[]]. apply in_map_iff in Hi as (t & E & Hi).
      rewrite Forall_forall in Hall. apply Hall in Hi. lia.
  - apply Forall_app. split.
    + eapply Forall_impl; [|exact Hall]. cbn. intros t [H1 H2]. split; [lia|auto].
    + constructor; [|constructor]. cbn. split; [lia|now left].
Qed.

Lemma toggle_ids (f : todo -> bool) (d : Z) (l : list todo) :
  map t_id
    (map (fun t => if f t
                   then {| t_id := t_id t; t_text := t_text t; t_done := d;
                           t_created_at := t_created_at t |}
                   else t) l)
  = map t_id l.
Proof.
  rewrite map_map. apply map_ext. intros t. now destruct (f t).
Qed.

Lemma todo_ok_toggle i conn :
  todo_ok conn -> todo_ok (snd (api_toggle_todo i conn)).
Proof.
  intros [Hnd Hall]. unfold api_toggle_todo.
  destruct (find _ _) as [row|]; [|now split].
  cbn [snd]. split; cbn [todos todo_seq].
  - now rewrite toggle_ids.
  - apply Forall_map. eapply Forall_impl; [|exact Hall]. cbn.
    intros t [H1 H2]. destruct (t_id t =? i)%Z; cbn; [|auto].
    split; [exact H1|]. destruct (t_done row =? 0)%Z; auto.
Qed.

Lemma todo_ok_delete i conn :
  todo_ok conn -> todo_ok (snd (api_delete_todo i conn)).
Proof.
  intros [Hnd Hall]. unfold api_delete_todo. cbn [snd].
  split; cbn [todos todo_seq].
  - clear Hall. induction (todos conn) as [|t l IH]; [constructor|].
    inversion Hnd as [|? ? Ht Hl]; subst. cbn [filter].
    destruct (negb _); [|auto]. cbn [map]. constructor; [|auto].
    intros Hin. apply Ht. apply in_map_iff in Hin as (t' & E & Hin).
    apply filter_In in Hin as [Hin _]. rewrite <- E. now apply in_map.
  - apply Forall_forall. intros t Ht. apply filter_In in Ht as [Ht _].
    rewrite Forall_forall in Hall. auto.
Qed.

(** X20: the todo table stays well formed under its three handlers: from a
    table whose identifiers are distinct and not above the AUTOINCREMENT
    counter and whose [done] flags are 0 or 1 (the empty table is one),
    adding, toggling and deleting, with any arguments, lead to such a table
    again. *)
Theorem todo_handlers_keep_ok conn :
  todo_ok conn ->
  (forall now text, todo_ok (snd (api_add_todo now text conn)))
  /\ (forall i, todo_ok (snd (api_toggle_todo i conn)))
  /\ (forall i, todo_ok (snd (api_delete_todo i conn))).
Proof.
  intros H. split; [|split]; intros.
  - now apply todo_ok_add.
  - now apply todo_ok_toggle.
  - now apply todo_ok_delete.
Qed.

Lemma todo_handlers_keep_ok_witness :
  todo_ok {| todos := []; todo_seq := 0 |}
  /\ todo_ok (snd (api_add_todo (lit "2024-03-01 09:00:00")
                     (Some (lit " pay rent "))
                     {| todos := []; todo_seq := 0 |})).
Proof.
  split; [exact todo_ok_empty|].
  apply (proj1 (todo_handlers_keep_ok todo_ok_empty)).
Defined.

Lemma delete_ids i (l : list todo) :
  ~ In i (map t_id (filter (fun t => negb (t_id t =? i)%Z) l)).
Proof.
  intros H. apply in_map_iff in H as (t & E & H).
  apply filter_In in H as [_ H]. rewrite E, Z.eqb_refl in H. discriminate.
Qed.

(** X21: adding a todo: a text that is missing or blank is refused with status
    400 and nothing is stored; otherwise one row is appended, holding the
    stripped text, not done, under an identifier no row of the table has.  The
    identifier of a todo that was deleted just before is not given out again. *)
Theorem add_todo_fresh now text conn :
  todo_ok conn ->
  let out := api_add_todo now text conn in
  (strip (or_empty text) = [] ->
   out = (Raise (HTTPException 400 (lit "Text required")), conn))
  /\ (strip (or_empty text) <> [] ->
      fst out = Ok tt
      /\ (exists t,
             todos (snd out) = todos conn ++ [t]
             /\ t_text t = strip (or_empty text)
             /\ t_done t = 0%Z
             /\ t_created_at t = now
             /\ ~ In (t_id t) (map t_id (todos conn)))
      /\ (forall i,
             In i (map t_id (todos conn)) ->
             ~ In i (map t_id
                       (todos (snd (api_add_todo now text
                                      (snd (api_delete_todo i conn)))))))).
Proof.
  intros [Hnd Hall]. cbv zeta. unfold api_add_todo.
  destruct (strip (or_empty text)) as [|c txt] eqn:E.
  - split; [reflexivity|congruence].
  - split; [discriminate|]. intros _. cbn [fst snd todos todo_seq].
    rewrite Forall_forall in Hall.
    split; [reflexivity|]. split.
    + eexists. split; [reflexivity|]. cbn [t_text t_done t_created_at t_id].
      repeat (split; [reflexivity|]).
      intros Hin. apply in_map_iff in Hin as (t & Et & Hin).
      apply Hall in Hin. lia.
    + intros i Hi. unfold api_delete_todo. cbn [snd todos todo_seq].
      rewrite map_app, in_app_iff. cbn [map t_id In].
      intros [H|[H|[]]].
      * now apply delete_ids in H.
      * apply in_map_iff in Hi as (t & Et & Hin). apply Hall in Hin. lia.
Qed.

Lemma add_todo_fresh_witness :
  todo_ok two_todos
  /\ map t_id (todos (snd (api_add_todo (lit "2024-03-03 08:00:00")
                             (Some (lit "call bank"))
                             (snd (api_delete_todo 2 two_todos)))))
     = [1%Z; 3%Z]
  /\ ~ In 2%Z
       (map t_id (todos (snd (api_add_todo (lit "2024-03-03 08:00:00")
                                (Some (lit "call bank"))
                                (snd (api_delete_todo 2 two_todos)))))).
Proof.
  assert (H : todo_ok two_todos).
  { split.
    - repeat constructor; cbn; intuition discriminate.
    - repeat constructor; cbn; auto; lia. }
  split; [exact H|]. split; [reflexivity|].
  refine (proj2 (proj2 (proj2 (@add_todo_fresh (lit "2024-03-03 08:00:00")
                                 (Some (lit "call bank")) two_todos H) _)) 2%Z _).
  - discriminate.
  - cbn. auto.
Defined.











Lemma sorted_flags (l : list todo) :
  StronglySorted todo_ordered l ->
  Forall (fun t => t_done t = 0 \/ t_done t = 1)%Z l ->
  exists open closed,
    l = open ++ closed
    /\ Forall (fun t => t_done t = 0%Z) open
    /\ Forall (fun t => t_done t = 1%Z) closed.
Proof.
  induction 1 as [|t l Hs IH Ht]; intros Hf.
  - exists [], []. repeat constructor.
  - inversion Hf as [|? ? Hd Hl]; subst.
    destruct Hd as [Hd|Hd].
    + destruct (IH Hl) as (o & c & -> & Ho & Hc).
      exists (t :: o), c. split; [reflexivity|]. split; [now constructor|exact Hc].
    + exists [], (t :: l). split; [reflexivity|]. split; [constructor|].
      constructor; [exact Hd|].
      rewrite Forall_forall in *. intros t' Ht'.
      specialize (Ht _ Ht'). specialize (Hl _ Ht'). unfold todo_ordered in Ht.
      lia.
Qed.

(** X24: the todo list shown is the whole table, reordered: every row once,
    each row before the rows with a larger [done] flag, and among rows with
    the same flag no older creation time before a newer one.  On a well-formed
    table that is the open todos, newest first, followed by the done ones,
    newest first. *)
Theorem get_todos_order conn :
  Permutation (todos conn) (get_todos conn)
  /\ StronglySorted todo_ordered (get_todos conn)
  /\ (todo_ok conn ->
      exists open closed,
        get_todos conn = open ++ closed
        /\ Forall (fun t => t_done t = 0%Z) open
        /\ Forall (fun t => t_done t = 1%Z) closed).
Proof.
  assert (Hp : Permutation (todos conn) (get_todos conn))
    by apply sort_by_perm.
  assert (Hs : StronglySorted todo_ordered (get_todos conn)).
  { pose proof (@sort_by_sorted _ _ todo_before_total todo_before_trans
                  (todos conn))
      as H.
    fold (get_todos conn) in H. revert H.
    generalize (get_todos conn). induction 1 as [|t l Hl IH Ht]; constructor.
    - exact IH.
    - eapply Forall_impl; [|exact Ht]. intros t'. apply todo_before_ordered. }
  split; [exact Hp|]. split; [exact Hs|].
  intros [_ Hall]. apply sorted_flags; [exact Hs|].
  rewrite Forall_forall in *. intros t Ht. apply Hall.
  eapply Permutation_in; [symmetry; exact Hp|exact Ht].
Qed.

(** On the two sample todos the open one comes first. *)
Example get_todos_two_todos :
  map t_id (get_todos two_todos) = [2%Z; 1%Z].
Proof. reflexivity. Qed.

Lemma get_todos_order_witness :
  todo_ok two_todos
  /\ exists open closed,
       get_todos two_todos = open ++ closed
       /\ Forall (fun t => t_done t = 0%Z) open
       /\ Forall (fun t => t_done t = 1%Z) closed.
Proof.
  assert (H : todo_ok two_todos).
  { split.
    - repeat constructor; cbn; intuition discriminate.
    - repeat constructor; cbn; auto; lia. }
  split; [exact H|].
  exact (proj2 (proj2 (get_todos_order two_todos)) H).
Defined.

(** ** The OAuth callback *)

Section OAuthProperties.
Variable flow : Type.
Variable fetch_token : flow -> str -> option str.

Lemma find_state_filtered (fl : flows flow) state :
  find (fun kv => str_eqb (fst kv) state)
       (filter (fun kv => negb (str_eqb (fst kv) state)) fl) = None.
Proof.
  induction fl as [|[k f] fl IH]; [reflexivity|]. cbn [filter fst].
  destruct (str_eqb k state) eqn:E; cbn [negb]; [exact IH|].
  cbn [find fst]. now rewrite E.
Qed.

Lemma find_state_other (fl : flows flow) state state' :
  state' <> state ->
  find (fun kv => str_eqb (fst kv) state')
       (filter (fun kv => negb (str_eqb (fst kv) state)) fl)
  = find (fun kv => str_eqb (fst kv) state') fl.
Proof.
  intros Hne. induction fl as [|[k f] fl IH]; [reflexivity|].
  cbn [filter find fst].
  destruct (str_eqb k state) eqn:E; cbn [negb find fst].
  - apply str_eqb_eq in E. subst k.
    destruct (str_eqb state state') eqn:E'; [|exact IH].
    apply str_eqb_eq in E'. congruence.
  - now rewrite IH.
Qed.

(** X25: an authorisation state is good for one callback.  A state that is
    not pending gets the expired answer and changes neither the pending flows
    nor the settings.  A pending state is consumed by the callback whether or
    not the token exchange succeeds, so a second callback with it is answered
    as expired; the other pending states stay; the token is stored exactly
    when the exchange succeeds, and the saved client configuration is never
    touched. *)
Theorem callback_one_shot state code (fl : flows flow) (conn : settings) :
  let out := api_gmail_callback fetch_token state code fl conn in
  let fl' := snd (fst out) in
  let conn' := snd out in
  (find (fun kv => str_eqb (fst kv) state) fl = None ->
   out = (StateExpired, fl, conn))
  /\ (forall code2,
        api_gmail_callback fetch_token state code2 fl' conn'
        = (StateExpired, fl', conn'))
  /\ (forall state',
        state' <> state ->
        find (fun kv => str_eqb (fst kv) state') fl'
        = find (fun kv => str_eqb (fst kv) state') fl)
  /\ (fst (fst out) = Connected <->
      exists kv token,
        find (fun kv => str_eqb (fst kv) state) fl = Some kv
        /\ fetch_token (snd kv) code = Some token
        /\ get_setting conn' (lit "gmail_token") None = Some token)
  /\ (fst (fst out) <> Connected -> conn' = conn)
  /\ (forall default,
        get_setting conn' (lit "gmail_client_config") default
        = get_setting conn (lit "gmail_client_config") default).
Proof.
  cbv zeta.
  destruct (find (fun kv => str_eqb (fst kv) state) fl) as [kv|] eqn:Ef.
  - destruct (fetch_token (snd kv) code) as [token|] eqn:Et.
    + assert (Eout : api_gmail_callback fetch_token state code fl conn
                     = (Connected,
                        filter (fun kv => negb (str_eqb (fst kv) state)) fl,
                        set_setting conn (lit "gmail_token") token))
        by (unfold api_gmail_callback; now rewrite Ef, Et).
      rewrite Eout. cbn [fst snd].
      split; [discriminate|]. split; [|split; [|split; [|split]]].
      * intros code2. unfold api_gmail_callback.
        now rewrite find_state_filtered.
      * intros state' Hne. now apply find_state_other.
      * split; [|reflexivity]. intros _. exists kv, token.
        split; [reflexivity|]. split; [exact Et|]. apply get_set_same.
      * intros H. exfalso. now apply H.
      * intros default. apply get_set_other. discriminate.
    + assert (Eout : api_gmail_callback fetch_token state code fl conn
                     = (ExchangeFailed,
                        filter (fun kv => negb (str_eqb (fst kv) state)) fl,
                        conn))
        by (unfold api_gmail_callback; now rewrite Ef, Et).
      rewrite Eout. cbn [fst snd].
      split; [discriminate|]. split; [|split; [|split; [|split]]].
      * intros code2. unfold api_gmail_callback.
        now rewrite find_state_filtered.
      * intros state' Hne. now apply find_state_other.
      * split; [discriminate|]. intros (kv' & token & [= <-] & Et' & _).
        congruence.
      * reflexivity.
      * reflexivity.
  - assert (Eout : api_gmail_callback fetch_token state code fl conn
                   = (StateExpired, fl, conn))
      by (unfold api_gmail_callback; now rewrite Ef).
    rewrite Eout. cbn [fst snd].
    split; [reflexivity|]. split; [|split; [|split; [|split]]].
    + intros code2. unfold api_gmail_callback. now rewrite Ef.
    + reflexivity.
    + split; [discriminate|]. intros (kv' & token & [=] & _).
    + reflexivity.
    + reflexivity.
Qed.
End OAuthProperties.
